(** * OrderSummary: order totals and the confirm / delete / load handlers

    A shallow embedding of [src/pages/OrderSummary.tsx].

    - Part 1 embeds [calculateTotal], the reduction over an order's line
      items, over JavaScript numbers (IEEE 754 binary64, Rocq's primitive
      floats).
    - Part 2 embeds the asynchronous handlers [loadOrders], [loadTopTapas],
      [handleDeleteOrder] and [handleConfirmOrder] as finite resumptions
      whose nodes are the state setters and the awaited backend calls,
      with two ways of running them: to completion against a backend, and
      on an event loop where clicks and replies interleave.
    - Parts 3 to 5 prove the properties of the total, of each handler run
      on its own, and of the event loop. *)

From Stdlib Require Import List String ZArith Lia Bool Permutation.
From Stdlib Require Import Floats.PrimFloat.
Import ListNotations.
Local Open Scope string_scope.
Local Open Scope list_scope.

(* ================================================================= *)
(** ** Part 1: line items and the payable total *)

(** The arithmetic [calculateTotal] uses: the literal [0], [+] and [*]. *)
Class Arith (num : Type) : Type := {
  zero : num;
  add : num -> num -> num;
  mul : num -> num -> num
}.

(** A JavaScript [number]: binary64 with round-to-nearest-even. *)
#[export] Instance js_number : Arith float := {
  zero := 0%float;
  add := PrimFloat.add;
  mul := PrimFloat.mul
}.

(** An order line, as the component reads it: [item.name],
    [item.category], [item.price], [item.quantity]. *)
Record OrderItem (num : Type) : Type := mkItem {
  name : string;
  category : string;
  price : num;
  quantity : num
}.
Arguments mkItem {num} _ _ _ _.
Arguments name {num} _.
Arguments category {num} _.
Arguments price {num} _.
Arguments quantity {num} _.

(** [item.category !== 'tapas'] *)
Definition chargeable {num} (item : OrderItem num) : bool :=
  negb (String.eqb (category item) "tapas").

Section Total.
Context {num : Type} `{Arith num}.

(** [items.reduce((total, item) => { if (item.category !== 'tapas')
      return total + item.price * item.quantity; return total; }, 0)] *)
Definition calculateTotal (items : list (OrderItem num)) : num :=
  fold_left
    (fun total item =>
       if chargeable item
       then add total (mul (price item) (quantity item))
       else total)
    items zero.

(** The amount of one line. *)
Definition line_amount (item : OrderItem num) : num :=
  mul (price item) (quantity item).

(** The total in the specification's words: the sum, from [0] and from
    left to right, of price times quantity over the items whose category
    is not ["tapas"]. *)
Definition payable_sum (items : list (OrderItem num)) : num :=
  fold_left add (map line_amount (filter chargeable items)) zero.

End Total.

(* ================================================================= *)
(** ** Part 2: the component, its state and its handlers *)

(** A line of the cart or of a stored order holds JavaScript numbers. *)
Definition Item : Type := OrderItem float.

(** Modelled from the spec: the [Customer] type of [../types], which is
    not part of the sources: identifier, display name and a type that is
    one of "adult" and "child". *)
Inductive CustomerType : Type := Adult | Child.

Record Customer : Type := mkCustomer {
  customer_id : string;
  customer_name : string;
  customer_type : CustomerType
}.

(** Modelled from the spec: the [OrderWithCustomer] type of [../types]:
    identifier, creation timestamp, owning customer and the ordered
    sequence of items.  The component reads [order.id], [order.created_at],
    [order.customer] and [order.items]. *)
Record Order : Type := mkOrder {
  order_id : string;
  created_at : string;
  order_customer : Customer;
  items : list Item
}.

(** A thrown or rejected value: the message of the [Error]. *)
Definition Err : Type := string.

(** The [useState] cells of the component. *)
Record View : Type := mkView {
  isSaving : bool;
  savedSuccessfully : bool;
  error : option string;
  allOrders : list Order;
  isLoading : bool;
  isDeletingOrder : option string;
  topTapas : list (string * float)
}.

(** What the component takes from [useStore()]: the cart. *)
Record Store : Type := mkStore {
  customer : option Customer;
  orderItems : list Item
}.

(** The callback handed to [setTimeout]: [() => navigate(path)]. *)
Inductive Callback : Type :=
| Navigate (path : string).

(** The synchronous effects of the handlers: the state setters,
    [clearOrder()], [console.error] and [setTimeout]. *)
Inductive Effect : Type :=
| SetIsSaving (b : bool)
| SetSavedSuccessfully (b : bool)
| SetError (e : option string)
| SetAllOrders (orders : list Order)
| SetIsLoading (b : bool)
| SetIsDeletingOrder (o : option string)
| SetTopTapas (top : list (string * float))
| ClearOrder
| ConsoleError (msg : string) (err : Err)
| SetTimeout (cb : Callback) (ms : Z).

(** The backend calls of [../lib/supabase]. *)
Inductive Request : Type :=
| SaveOrder (customerId : string) (cart : list Item)
| GetAllOrders
| DeleteOrder (orderId : string)
| GetTopTapas.

(** What the promise of a call resolves with.  [getAllOrders] may resolve
    with [null] or [undefined] ([None]), which is why the component writes
    [orders || []]. *)
Definition Reply (r : Request) : Type :=
  match r with
  | SaveOrder _ _ => unit
  | GetAllOrders => option (list Order)
  | DeleteOrder _ => unit
  | GetTopTapas => list (string * float)
  end.

(** An [async] function body: a finite tree of effects and awaited calls
    that returns, or throws.  [Await r k] issues the request [r] and
    suspends; [k] resumes with the rejection ([inl]) or the value ([inr]). *)
Inductive Async (A : Type) : Type :=
| Ret (a : A)
| Throw (e : Err)
| Eff (e : Effect) (k : Async A)
| Await (r : Request) (k : Err + Reply r -> Async A).
Arguments Ret {A} a.
Arguments Throw {A} e.
Arguments Eff {A} e k.
Arguments Await {A} r k.

Fixpoint bind {A B : Type} (m : Async A) (f : A -> Async B) : Async B :=
  match m with
  | Ret a => f a
  | Throw e => Throw e
  | Eff e k => Eff e (bind k f)
  | Await r k => Await r (fun res => bind (k res) f)
  end.

(** [try { m } catch (err) { h err }] *)
Fixpoint try_catch {A : Type} (m : Async A) (h : Err -> Async A) : Async A :=
  match m with
  | Ret a => Ret a
  | Throw e => h e
  | Eff e k => Eff e (try_catch k h)
  | Await r k => Await r (fun res => try_catch (k res) h)
  end.

(** [try { m } finally { c }]: [c] runs on both exits, then the exit of
    [m] is resumed (unless [c] itself throws). *)
Fixpoint try_finally {A : Type} (m : Async A) (c : Async unit) : Async A :=
  match m with
  | Ret a => bind c (fun _ => Ret a)
  | Throw e => bind c (fun _ => Throw e)
  | Eff e k => Eff e (try_finally k c)
  | Await r k => Await r (fun res => try_finally (k res) c)
  end.

(** One effect, as a statement. *)
Definition eff (e : Effect) : Async unit := Eff e (Ret tt).

(** [await call(...)]: a rejection is thrown at the [await]. *)
Definition call (r : Request) : Async (Reply r) :=
  Await r (fun res => match res with inl e => Throw e | inr v => Ret v end).

Declare Scope async_scope.
Delimit Scope async_scope with async.
Notation "x <- m ;; k" := (bind m (fun x => k))
  (at level 61, m at next level, right associativity) : async_scope.
Notation "m ;; k" := (bind m (fun _ => k))
  (at level 61, right associativity) : async_scope.
Notation "'TRY' m 'CATCH' h 'FINALLY' c" :=
  (try_finally (try_catch m h) c)
  (at level 10, m at level 200, h at level 200, c at level 200) : async_scope.
Local Open Scope async_scope.

(** [orders || []] *)
Definition or_empty (orders : option (list Order)) : list Order :=
  match orders with
  | Some l => l
  | None => []
  end.

Definition loadOrders : Async unit :=
  TRY
    eff (SetIsLoading true) ;;
    orders <- call GetAllOrders ;;
    eff (SetAllOrders (or_empty orders))
  CATCH (fun err =>
    eff (ConsoleError "Error loading orders:" err) ;;
    eff (SetError (Some "Error al cargar los pedidos")))
  FINALLY
    eff (SetIsLoading false).

Definition loadTopTapas : Async unit :=
  try_catch
    (topTapasData <- call GetTopTapas ;;
     eff (SetTopTapas topTapasData))
    (fun err => eff (ConsoleError "Error loading top tapas:" err)).

Definition handleDeleteOrder (orderId : string) : Async unit :=
  TRY
    eff (SetIsDeletingOrder (Some orderId)) ;;
    call (DeleteOrder orderId) ;;
    loadOrders ;;
    loadTopTapas
  CATCH (fun err =>
    eff (ConsoleError "Error deleting order:" err) ;;
    eff (SetError (Some "Error al eliminar el pedido")))
  FINALLY
    eff (SetIsDeletingOrder None).

Definition save_failed_message : string :=
  "Error al guardar el pedido. Por favor, inténtalo de nuevo.".

(** The body of the [try] block of [handleConfirmOrder]; [customer] and
    [orderItems] are the values the rendering closure captured. *)
Definition confirm_body (customer : option Customer) (orderItems : list Item)
  : Async unit :=
  eff (SetIsSaving true) ;;
  eff (SetError None) ;;
  match customer with
  | None => Throw "No customer selected"
  | Some c =>
      call (SaveOrder (customer_id c) orderItems) ;;
      eff (SetSavedSuccessfully true) ;;
      eff ClearOrder ;;
      loadOrders ;;
      loadTopTapas ;;
      eff (SetTimeout (Navigate "/") 2000)
  end.

Definition handleConfirmOrder (customer : option Customer)
                              (orderItems : list Item) : Async unit :=
  TRY
    confirm_body customer orderItems
  CATCH (fun err =>
    eff (SetError (Some save_failed_message)) ;;
    eff (ConsoleError "Error saving order:" err))
  FINALLY
    eff (SetIsSaving false).

(* ----------------------------------------------------------------- *)
(** *** Running a handler *)

(** What an observer sees: the effects performed and the requests sent. *)
Inductive Event : Type :=
| Did (e : Effect)
| Requested (r : Request).

(** The state the handlers act on: the component's cells, the cart, the
    pending timers and the history of events, oldest first. *)
Record World : Type := mkWorld {
  view : View;
  store : Store;
  timers : list (Callback * Z);
  log : list Event
}.

Definition upd_view (e : Effect) (v : View) : View :=
  match e with
  | SetIsSaving b =>
      mkView b (savedSuccessfully v) (error v) (allOrders v) (isLoading v)
             (isDeletingOrder v) (topTapas v)
  | SetSavedSuccessfully b =>
      mkView (isSaving v) b (error v) (allOrders v) (isLoading v)
             (isDeletingOrder v) (topTapas v)
  | SetError e =>
      mkView (isSaving v) (savedSuccessfully v) e (allOrders v) (isLoading v)
             (isDeletingOrder v) (topTapas v)
  | SetAllOrders l =>
      mkView (isSaving v) (savedSuccessfully v) (error v) l (isLoading v)
             (isDeletingOrder v) (topTapas v)
  | SetIsLoading b =>
      mkView (isSaving v) (savedSuccessfully v) (error v) (allOrders v) b
             (isDeletingOrder v) (topTapas v)
  | SetIsDeletingOrder o =>
      mkView (isSaving v) (savedSuccessfully v) (error v) (allOrders v)
             (isLoading v) o (topTapas v)
  | SetTopTapas t =>
      mkView (isSaving v) (savedSuccessfully v) (error v) (allOrders v)
             (isLoading v) (isDeletingOrder v) t
  | ClearOrder | ConsoleError _ _ | SetTimeout _ _ => v
  end.

Definition upd_timers (e : Effect) (ts : list (Callback * Z))
  : list (Callback * Z) :=
  match e with
  | SetTimeout cb ms => ts ++ [(cb, ms)]
  | _ => ts
  end.

(** [useState(...)] initial values. *)
Definition initial_view : View :=
  mkView false false None [] true None [].

Definition record_request (r : Request) (w : World) : World :=
  mkWorld (view w) (store w) (timers w) (log w ++ [Requested r]).

(** Where a handler stands after running as far as it can without a
    reply: it has returned or thrown, or it waits on a request. *)
Inductive Outcome (A : Type) : Type :=
| Finished (res : Err + A)
| Suspended (r : Request) (k : Err + Reply r -> Async A).
Arguments Finished {A} res.
Arguments Suspended {A} r k.

Section Component.

(** [clearOrder] of [useStore()]; the store module is not part of the
    sources, so the function is a parameter of the development. *)
Variable clearOrder : Store -> Store.

Definition upd_store (e : Effect) (st : Store) : Store :=
  match e with
  | ClearOrder => clearOrder st
  | _ => st
  end.

Definition apply_effect (e : Effect) (w : World) : World :=
  mkWorld (upd_view e (view w)) (upd_store e (store w))
          (upd_timers e (timers w)) (log w ++ [Did e]).

(** Run up to the first [await] of a backend call. *)
Fixpoint run_sync {A : Type} (t : Async A) (w : World) : World * Outcome A :=
  match t with
  | Ret a => (w, Finished (inr a))
  | Throw e => (w, Finished (inl e))
  | Eff e k => run_sync k (apply_effect e w)
  | Await r k => (record_request r w, Suspended r k)
  end.

(** Run to completion against a backend: [serve r b] is the reply of the
    backend in state [b] to the request [r], and its next state. *)
Fixpoint exec {A B : Type}
    (serve : forall r : Request, B -> (Err + Reply r) * B)
    (t : Async A) (b : B) (w : World) : (Err + A) * B * World :=
  match t with
  | Ret a => (inr a, b, w)
  | Throw e => (inl e, b, w)
  | Eff e k => exec serve k b (apply_effect e w)
  | Await r k =>
      let '(res, b') := serve r b in
      exec serve (k res) b' (record_request r w)
  end.

(** Replay a history on a state. *)
Definition perform_event (w : World) (ev : Event) : World :=
  match ev with
  | Did e => apply_effect e w
  | Requested r => record_request r w
  end.

Definition perform (evs : list Event) (w : World) : World :=
  fold_left perform_event evs w.

(* ----------------------------------------------------------------- *)
(** *** The event loop: clicks and replies, interleaved *)

(** A request in flight, with the rest of the handler that awaits it. *)
Record InFlight : Type := mkInFlight {
  request : Request;
  resume : Err + Reply request -> Async unit
}.

Record System : Type := mkSystem {
  world : World;
  pool : list InFlight
}.

(** Start (or resume) a handler: it runs to its next [await]. *)
Definition spawn (t : Async unit) (s : System) : System :=
  match run_sync t (world s) with
  | (w', Finished _) => mkSystem w' (pool s)
  | (w', Suspended r k) => mkSystem w' (pool s ++ [mkInFlight r k])
  end.

(** How a promise settles, before it is matched against its request. *)
Inductive Settled : Type :=
| Rejected (e : Err)
| ResolvedVoid
| ResolvedOrders (orders : option (list Order))
| ResolvedTop (top : list (string * float)).

Definition settle (r : Request) (s : Settled) : option (Err + Reply r) :=
  match s with
  | Rejected e => Some (inl e)
  | ResolvedVoid =>
      match r return option (Err + Reply r) with
      | SaveOrder _ _ | DeleteOrder _ => Some (inr tt)
      | _ => None
      end
  | ResolvedOrders o =>
      match r return option (Err + Reply r) with
      | GetAllOrders => Some (inr o)
      | _ => None
      end
  | ResolvedTop t =>
      match r return option (Err + Reply r) with
      | GetTopTapas => Some (inr t)
      | _ => None
      end
  end.

(** The delete button of an order: [disabled={isDeletingOrder === order.id}]. *)
Definition delete_disabled (v : View) (o : Order) : bool :=
  match isDeletingOrder v with
  | Some i => String.eqb i (order_id o)
  | None => false
  end.

(** The confirm button is rendered under
    [customer && orderItems.length > 0], when [savedSuccessfully] is false,
    and the whole page only when [isLoading] is false. *)
Definition confirm_rendered (w : World) : bool :=
  negb (isLoading (view w))
  && match customer (store w) with Some _ => true | None => false end
  && (0 <? List.length (orderItems (store w)))%nat
  && negb (savedSuccessfully (view w)).

(** [disabled={isSaving}] *)
Definition confirm_disabled (w : World) : bool := isSaving (view w).

Definition confirm_clickable (w : World) : bool :=
  confirm_rendered w && negb (confirm_disabled w).

Definition remove_nth {X : Type} (i : nat) (l : list X) : list X :=
  firstn i l ++ skipn (S i) l.

(** What can happen next: a request in flight settles, or the user clicks
    a control that is rendered and not disabled. *)
Inductive Action : Type :=
| Settle (i : nat) (how : Settled)
| ClickConfirm
| ClickDelete (j : nat).

Definition fire (a : Action) (s : System) : option System :=
  match a with
  | Settle i how =>
      match nth_error (pool s) i with
      | Some f =>
          match settle (request f) how with
          | Some res =>
              Some (spawn (resume f res)
                          (mkSystem (world s) (remove_nth i (pool s))))
          | None => None
          end
      | None => None
      end
  | ClickConfirm =>
      if confirm_clickable (world s)
      then Some (spawn (handleConfirmOrder (customer (store (world s)))
                                           (orderItems (store (world s)))) s)
      else None
  | ClickDelete j =>
      if isLoading (view (world s)) then None
      else
        match nth_error (allOrders (view (world s))) j with
        | Some o =>
            if delete_disabled (view (world s)) o then None
            else Some (spawn (handleDeleteOrder (order_id o)) s)
        | None => None
        end
  end.

Fixpoint fire_all (acts : list Action) (s : System) : option System :=
  match acts with
  | [] => Some s
  | a :: rest =>
      match fire a s with
      | Some s' => fire_all rest s'
      | None => None
      end
  end.

(** [useEffect(() => { loadOrders(); loadTopTapas(); }, [])]: both loads
    are started, neither is awaited. *)
Definition mounted (st : Store) : System :=
  spawn loadTopTapas
    (spawn loadOrders (mkSystem (mkWorld initial_view st [] []) [])).

Definition reachable (st : Store) (s : System) : Prop :=
  exists acts : list Action, fire_all acts (mounted st) = Some s.

Definition is_save (r : Request) : bool :=
  match r with SaveOrder _ _ => true | _ => false end.

Definition is_delete (r : Request) : bool :=
  match r with DeleteOrder _ => true | _ => false end.

(** The number of requests of a kind that are in flight. *)
Definition in_flight (kind : Request -> bool) (s : System) : nat :=
  List.length (filter kind (map request (pool s))).

End Component.

(* ================================================================= *)
(** ** Histories of the handlers *)

(** The events of one [loadOrders()], given how [getAllOrders] settled. *)
Definition loadOrders_events (ro : Err + option (list Order)) : list Event :=
  [Did (SetIsLoading true); Requested GetAllOrders]
  ++ match ro with
     | inr orders => [Did (SetAllOrders (or_empty orders))]
     | inl err => [Did (ConsoleError "Error loading orders:" err);
                   Did (SetError (Some "Error al cargar los pedidos"))]
     end
  ++ [Did (SetIsLoading false)].

(** The events of one [loadTopTapas()], given how [getTopTapas] settled. *)
Definition loadTopTapas_events (rt : Err + list (string * float))
  : list Event :=
  Requested GetTopTapas
  :: match rt with
     | inr top => [Did (SetTopTapas top)]
     | inl err => [Did (ConsoleError "Error loading top tapas:" err)]
     end.

(** The events of [handleConfirmOrder] when no customer is selected. *)
Definition no_customer_events : list Event :=
  [Did (SetIsSaving true); Did (SetError None);
   Did (SetError (Some save_failed_message));
   Did (ConsoleError "Error saving order:" "No customer selected");
   Did (SetIsSaving false)].

(** The events of [handleConfirmOrder] when [saveOrder] rejects. *)
Definition save_rejected_events (c : Customer) (cart : list Item) (err : Err)
  : list Event :=
  [Did (SetIsSaving true); Did (SetError None);
   Requested (SaveOrder (customer_id c) cart);
   Did (SetError (Some save_failed_message));
   Did (ConsoleError "Error saving order:" err);
   Did (SetIsSaving false)].

(** The events of [handleConfirmOrder] when [saveOrder] resolves. *)
Definition saved_events (c : Customer) (cart : list Item)
    (ro : Err + option (list Order)) (rt : Err + list (string * float))
  : list Event :=
  [Did (SetIsSaving true); Did (SetError None);
   Requested (SaveOrder (customer_id c) cart);
   Did (SetSavedSuccessfully true); Did ClearOrder]
  ++ loadOrders_events ro
  ++ loadTopTapas_events rt
  ++ [Did (SetTimeout (Navigate "/") 2000); Did (SetIsSaving false)].

(** The events of [handleDeleteOrder] when [deleteOrder] rejects. *)
Definition delete_rejected_events (orderId : string) (err : Err)
  : list Event :=
  [Did (SetIsDeletingOrder (Some orderId)); Requested (DeleteOrder orderId);
   Did (ConsoleError "Error deleting order:" err);
   Did (SetError (Some "Error al eliminar el pedido"));
   Did (SetIsDeletingOrder None)].

(** The events of [handleDeleteOrder] when [deleteOrder] resolves. *)
Definition deleted_events (orderId : string)
    (ro : Err + option (list Order)) (rt : Err + list (string * float))
  : list Event :=
  [Did (SetIsDeletingOrder (Some orderId)); Requested (DeleteOrder orderId)]
  ++ loadOrders_events ro
  ++ loadTopTapas_events rt
  ++ [Did (SetIsDeletingOrder None)].

(* ----------------------------------------------------------------- *)
(** *** One save at a time *)

(** A handler that never writes [isSaving] and never calls [saveOrder]. *)
Fixpoint quiet (t : Async unit) : Prop :=
  match t with
  | Ret _ | Throw _ => True
  | Eff e k =>
      match e with SetIsSaving _ => False | _ => True end /\ quiet k
  | Await r k => is_save r = false /\ forall res, quiet (k res)
  end.

(** A handler that holds [isSaving]: [held] is the value the cell has
    where the handler stands; it is true at every [await] and false when
    the handler ends. *)
Fixpoint saving (held : bool) (t : Async unit) : Prop :=
  match t with
  | Ret _ | Throw _ => held = false
  | Eff e k => saving (match e with SetIsSaving b => b | _ => held end) k
  | Await r k => held = true /\ forall res, saving true (k res)
  end.

Definition quiet_entry (f : InFlight) : Prop :=
  is_save (request f) = false /\ forall res, quiet (resume f res).

Definition saving_entry (f : InFlight) : Prop :=
  forall res, saving true (resume f res).

(** At most one suspended handler holds [isSaving], and the cell is true
    while there is one; every other suspended handler is quiet. *)
Definition one_saver (s : System) : Prop :=
  exists qs : list InFlight,
    Forall quiet_entry qs
    /\ (Permutation (pool s) qs
        \/ (isSaving (view (world s)) = true
            /\ exists f, saving_entry f /\ Permutation (pool s) (f :: qs))).

(* ----------------------------------------------------------------- *)
(** *** Busy flags are released *)

(** The three busy cells. *)
Inductive Flag : Type := FlagSaving | FlagDeleting | FlagLoading.

Definition busy (f : Flag) (v : View) : bool :=
  match f with
  | FlagSaving => isSaving v
  | FlagDeleting =>
      match isDeletingOrder v with Some _ => true | None => false end
  | FlagLoading => isLoading v
  end.

(** What an effect writes to a busy cell, if it writes to it. *)
Definition writes (f : Flag) (e : Effect) : option bool :=
  match f, e with
  | FlagSaving, SetIsSaving b => Some b
  | FlagDeleting, SetIsDeletingOrder (Some _) => Some true
  | FlagDeleting, SetIsDeletingOrder None => Some false
  | FlagLoading, SetIsLoading b => Some b
  | _, _ => None
  end.

(** [releases f held t]: on every path of [t], the last write of [t] to
    the cell [f], if there is one, clears it; [held] tells whether the
    handler's latest write so far left the cell busy. *)
Fixpoint releases (f : Flag) (held : bool) (t : Async unit) : Prop :=
  match t with
  | Ret _ | Throw _ => held = false
  | Eff e k =>
      releases f (match writes f e with Some b => b | None => held end) k
  | Await r k => forall res, releases f held (k res)
  end.

(** Every suspended handler releases the cell [f], and when the cell is
    busy some suspended handler still has to release it. *)
Definition settles (f : Flag) (s : System) : Prop :=
  exists hs : list bool,
    Forall2 (fun h e => forall res, releases f h (resume e res)) hs (pool s)
    /\ (busy f (view (world s)) = true -> In true hs).

(** A handler's history, from [w] to [w'], ends with the event [ev]. *)
Definition ends_with (ev : Event) (w w' : World) : Prop :=
  exists evs : list Event, log w' = log w ++ evs ++ [ev].

(* ================================================================= *)
(** ** What the page shows *)

(** One line of an order: [{item.name} x{item.quantity}] and, when
    [item.category !== 'tapas'], the amount [item.price * item.quantity],
    kept as the number that is handed to [toFixed(2)]: the two-decimal
    text that [toFixed] makes of it is not modelled. *)
Record LineView : Type := mkLineView {
  line_name : string;
  line_quantity : float;
  line_amount_arg : option float
}.

(** One order of the history: the customer's name, the label of the
    customer's type, the delete button and whether it is disabled, the
    lines, and the number handed to [toFixed(2)] after "Total a pagar:".
    The date, which goes through [toLocaleDateString], is left out. *)
Record RowView : Type := mkRowView {
  row_customer : string;
  row_type_label : string;
  row_delete_disabled : bool;
  row_lines : list LineView;
  row_total_arg : float
}.

(** The order history: the message for an empty list, or the rows. *)
Inductive HistoryView : Type :=
| NoOrders (message : string)
| OrderRows (rows : list RowView).

(** What stands at the bottom of the cart block: the success message, or
    the confirm button with its [disabled] attribute and its label. *)
Inductive CartAction : Type :=
| SavedBanner (message : string)
| ConfirmButton (disabled : bool) (label : string).

(** The cart block: the error message when there is one, and the action. *)
Record CartView : Type := mkCartView {
  cart_error : option string;
  cart_action : CartAction
}.

(** The screen: the loading message alone, or the page. *)
Inductive Screen : Type :=
| LoadingScreen (message : string)
| Page (history : HistoryView) (cart : option CartView).

Definition render_line (item : Item) : LineView :=
  mkLineView (name item) (quantity item)
    (if chargeable item
     then Some (mul (price item) (quantity item))
     else None).

(** [order.customer.type === 'adult' ? ' Adulto' : ' Niño'] *)
Definition type_label (t : CustomerType) : string :=
  match t with
  | Adult => " Adulto"
  | Child => " Niño"
  end.

(** [error && ...]: [null] and the empty string show nothing. *)
Definition error_shown (e : option string) : option string :=
  match e with
  | Some EmptyString => None
  | Some msg => Some msg
  | None => None
  end.

Definition render_row (v : View) (o : Order) : RowView :=
  mkRowView (customer_name (order_customer o))
            (type_label (customer_type (order_customer o)))
            (delete_disabled v o)
            (map render_line (items o))
            (calculateTotal (items o)).

Definition render_history (v : View) : HistoryView :=
  match allOrders v with
  | [] => NoOrders "No hay pedidos registrados"
  | orders => OrderRows (map (render_row v) orders)
  end.

Definition render_cart (w : World) : option CartView :=
  match customer (store w), orderItems (store w) with
  | Some _, _ :: _ =>
      Some (mkCartView
              (error_shown (error (view w)))
              (if savedSuccessfully (view w)
               then SavedBanner "Pedido guardado correctamente"
               else ConfirmButton (isSaving (view w))
                      (if isSaving (view w)
                       then "Guardando..."
                       else "Finalizar Pedido")))
  | _, _ => None
  end.

(** The [return] of the component. *)
Definition render (w : World) : Screen :=
  if isLoading (view w)
  then LoadingScreen "Cargando pedidos..."
  else Page (render_history (view w)) (render_cart w).

(** The [disabled] attribute of the confirm button, when the screen has
    one. *)
Definition confirm_button (sc : Screen) : option bool :=
  match sc with
  | Page _ (Some (mkCartView _ (ConfirmButton disabled _))) => Some disabled
  | _ => None
  end.

(** The [disabled] attribute of the delete button of the [j]-th row, when
    the screen has that row. *)
Definition delete_button (sc : Screen) (j : nat) : option bool :=
  match sc with
  | Page (OrderRows rows) _ =>
      match nth_error rows j with
      | Some row => Some (row_delete_disabled row)
      | None => None
      end
  | _ => None
  end.

(** Whether a button with this [disabled] attribute can be clicked. *)
Definition clickable (button : option bool) : bool :=
  match button with
  | Some false => true
  | _ => false
  end.

(** Whether an action of the event loop was possible. *)
Definition happens (next : option System) : bool :=
  match next with
  | Some _ => true
  | None => false
  end.

(** The error message on the screen, when one is shown. *)
Definition error_banner (sc : Screen) : option string :=
  match sc with
  | Page _ (Some c) => cart_error c
  | _ => None
  end.

(** The success message on the screen, when it is shown. *)
Definition saved_banner (sc : Screen) : option string :=
  match sc with
  | Page _ (Some (mkCartView _ (SavedBanner msg))) => Some msg
  | _ => None
  end.

(** The amounts of the lines of a row that have one, top to bottom, as
    handed to [toFixed(2)]. *)
Definition amount_args (row : RowView) : list float :=
  flat_map (fun l => match line_amount_arg l with
                     | Some a => [a]
                     | None => []
                     end)
           (row_lines row).

(* ----------------------------------------------------------------- *)
(** *** One navigation at most *)

(** A handler that writes neither [isSaving] nor [savedSuccessfully] and
    sets no timer. *)
Fixpoint calm (t : Async unit) : Prop :=
  match t with
  | Ret _ | Throw _ => True
  | Eff e k =>
      match e with
      | SetIsSaving _ | SetSavedSuccessfully _ | SetTimeout _ _ => False
      | _ => True
      end /\ calm k
  | Await r k => forall res, calm (k res)
  end.

(** A handler that confirms an order.  [held] and [saved] are the values
    of [isSaving] and [savedSuccessfully] where the handler stands, [fired]
    tells whether it has set its timer.  It holds [isSaving] at every
    [await], only ever sets [savedSuccessfully] to true, and sets one timer
    at most, the navigation to "/" after 2000 ms, once [savedSuccessfully]
    is true and with no [await] after it. *)
Fixpoint confirms (held saved fired : bool) (t : Async unit) : Prop :=
  match t with
  | Ret _ | Throw _ => held = false
  | Eff e k =>
      match e with
      | SetIsSaving b => confirms b saved fired k
      | SetSavedSuccessfully b => b = true /\ confirms held true fired k
      | SetTimeout cb ms =>
          (saved = true /\ fired = false
           /\ cb = Navigate "/" /\ ms = 2000%Z)
          /\ confirms held saved true k
      | _ => confirms held saved fired k
      end
  | Await r k =>
      held = true /\ fired = false
      /\ forall res, confirms true saved false (k res)
  end.

Definition calm_entry (f : InFlight) : Prop :=
  forall res, calm (resume f res).

(** No timer is set, or [savedSuccessfully] is true and the only timer is
    the navigation to "/" after 2000 ms. *)
Definition timer_state (w : World) : Prop :=
  timers w = []
  \/ (savedSuccessfully (view w) = true
      /\ timers w = [(Navigate "/", 2000%Z)]).

(** The invariant behind the single navigation: either every suspended
    handler is calm, or exactly one confirms an order, [isSaving] is true
    and no timer is set yet. *)
Definition one_shot (s : System) : Prop :=
  exists qs : list InFlight,
    Forall calm_entry qs
    /\ ((Permutation (pool s) qs /\ timer_state (world s))
        \/ (isSaving (view (world s)) = true
            /\ timers (world s) = []
            /\ exists f,
                 (forall res,
                     confirms true (savedSuccessfully (view (world s)))
                              false (resume f res))
                 /\ Permutation (pool s) (f :: qs))).

(* ----------------------------------------------------------------- *)
(** *** No request is sent again *)

(** A handler that only reloads: it sends no [saveOrder] and no
    [deleteOrder]. *)
Fixpoint reloads_only (t : Async unit) : Prop :=
  match t with
  | Ret _ | Throw _ => True
  | Eff _ k => reloads_only k
  | Await r k =>
      is_save r = false /\ is_delete r = false
      /\ forall res, reloads_only (k res)
  end.

(** Once its first request is answered, a handler only reloads. *)
Fixpoint sends_once (t : Async unit) : Prop :=
  match t with
  | Ret _ | Throw _ => True
  | Eff _ k => sends_once k
  | Await r k => forall res, reloads_only (k res)
  end.

Definition reloading (s : System) : Prop :=
  Forall (fun f => forall res, reloads_only (resume f res)) (pool s).

(** The events of a handler up to its first [await], the request
    included. *)
Fixpoint first_events (t : Async unit) : list Event :=
  match t with
  | Ret _ | Throw _ => []
  | Eff e k => Did e :: first_events k
  | Await r _ => [Requested r]
  end.

(** Two requests are calls of the same backend function. *)
Definition same_kind (r r' : Request) : bool :=
  match r, r' with
  | SaveOrder _ _, SaveOrder _ _ => true
  | GetAllOrders, GetAllOrders => true
  | DeleteOrder _, DeleteOrder _ => true
  | GetTopTapas, GetTopTapas => true
  | _, _ => false
  end.

(** No two requests of the list are calls of the same backend function. *)
Fixpoint distinct_kinds (rs : list Request) : bool :=
  match rs with
  | [] => true
  | r :: rest => negb (existsb (same_kind r) rest) && distinct_kinds rest
  end.

(** [never_again sent t]: on every path, whatever the replies, [t] sends
    no request that [sent] holds, and none of the kind of a request it
    has sent itself. *)
Fixpoint never_again (sent : Request -> bool) (t : Async unit) : Prop :=
  match t with
  | Ret _ | Throw _ => True
  | Eff _ k => never_again sent k
  | Await r k =>
      sent r = false
      /\ forall res,
           never_again (fun r' => sent r' || same_kind r r') (k res)
  end.

(** Every suspended handler, once its request is answered, sends no
    request of that kind again. *)
Definition answered_once (s : System) : Prop :=
  Forall (fun f => forall res,
              never_again (same_kind (request f)) (resume f res))
         (pool s).

(* ================================================================= *)
(** ** Example data *)

(** Three drinks at 0.1, 0.2 and 0.3 (the nearest binary64 values), one of
    each. *)
Definition dimes : list (OrderItem float) :=
  [ mkItem "a" "drinks" 0x1.999999999999ap-4%float 1%float;
    mkItem "b" "drinks" 0x1.999999999999ap-3%float 1%float;
    mkItem "c" "drinks" 0x1.3333333333333p-2%float 1%float ].

(** Three drinks at 2^53, 1 and 1, one of each: whole numbers, each of
    them a binary64 value. *)
Definition whole_amounts : list (OrderItem float) :=
  [ mkItem "a" "drinks" 9007199254740992%float 1%float;
    mkItem "b" "drinks" 1%float 1%float;
    mkItem "c" "drinks" 1%float 1%float ].

(** A backend that rejects every call. *)
Definition backend_down (r : Request) (b : unit) : (Err + Reply r) * unit :=
  (inl "network down", b).

(** A backend that accepts every call and holds the given orders; its
    [getAllOrders] resolves with them, its [getTopTapas] with no entry. *)
Definition backend_up (r : Request) (b : list Order)
  : (Err + Reply r) * list Order :=
  match r return (Err + Reply r) * list Order with
  | SaveOrder _ _ => (inr tt, b)
  | GetAllOrders => (inr (Some b), b)
  | DeleteOrder i =>
      (inr tt, filter (fun o => negb (String.eqb (order_id o) i)) b)
  | GetTopTapas => (inr [], b)
  end.

(** A backend whose [getAllOrders] resolves with [null]. *)
Definition backend_null (r : Request) (b : unit) : (Err + Reply r) * unit :=
  match r return (Err + Reply r) * unit with
  | SaveOrder _ _ => (inr tt, b)
  | GetAllOrders => (inr None, b)
  | DeleteOrder _ => (inr tt, b)
  | GetTopTapas => (inr [], b)
  end.

(** [clearOrder] as a store would write it: no customer, no items. *)
Definition empty_cart (st : Store) : Store := mkStore None [].

Definition ana : Customer := mkCustomer "c1" "Ana" Adult.
Definition luis : Customer := mkCustomer "c2" "Luis" Child.

Definition coke : Item := mkItem "Coke" "drinks" 2%float 2%float.
Definition tapa : Item := mkItem "Tapa1" "tapas" 1%float 5%float.

Definition order_a : Order := mkOrder "A" "2024-05-01" ana [coke; tapa].
Definition order_b : Order := mkOrder "B" "2024-05-02" luis [coke].

(** The page once loaded, with Ana's cart and two orders in the history. *)
Definition ready_world : World :=
  mkWorld (mkView false false None [order_a; order_b] false None [])
          (mkStore (Some ana) [coke; tapa]) [] [].

(** The requests of a history. *)
Definition requests_of (evs : list Event) : list Request :=
  flat_map (fun ev => match ev with Requested r => [r] | Did _ => [] end) evs.

(** The effects of a history. *)
Definition effects_of (evs : list Event) : list Effect :=
  flat_map (fun ev => match ev with Did e => [e] | Requested _ => [] end) evs.

(** A handler that, run against any backend from any state, calls each
    backend function once at most. *)
Definition calls_each_once (clearOrder : Store -> Store) (h : Async unit)
  : Prop :=
  forall (B : Type) (serve : forall r : Request, B -> (Err + Reply r) * B)
         (b : B) (w : World),
  exists evs : list Event,
    log (snd (exec clearOrder serve h b w)) = log w ++ evs
    /\ distinct_kinds (requests_of evs) = true.

Definition settled_orders (ro : Err + option (list Order)) : Settled :=
  match ro with
  | inl e => Rejected e
  | inr orders => ResolvedOrders orders
  end.

Definition settled_top (rt : Err + list (string * float)) : Settled :=
  match rt with
  | inl e => Rejected e
  | inr top => ResolvedTop top
  end.

(** The two ways the initial load can go: after mounting, the request of
    [loadOrders] is first in the pool and the one of [loadTopTapas] second;
    either may settle first. *)
Definition initial_load (orders_first : bool)
    (ro : Err + option (list Order)) (rt : Err + list (string * float))
  : list Action :=
  if orders_first
  then [Settle 0 (settled_orders ro); Settle 0 (settled_top rt)]
  else [Settle 1 (settled_top rt); Settle 0 (settled_orders ro)].

(** The page after the initial load resolved with two orders, Ana's cart
    in the store. *)
Definition loaded : System :=
  match fire_all empty_cart
          [Settle 0 (ResolvedOrders (Some [order_a; order_b]));
           Settle 0 (ResolvedTop [])]
          (mounted empty_cart (mkStore (Some ana) [coke; tapa])) with
  | Some s => s
  | None => mounted empty_cart (mkStore (Some ana) [coke; tapa])
  end.

(** ... then after a click on "Finalizar Pedido". *)
Definition confirming : System :=
  match fire empty_cart ClickConfirm loaded with
  | Some s => s
  | None => loaded
  end.

(** ... or after a click on the delete button of the first order. *)
Definition deleting_a : System :=
  match fire empty_cart (ClickDelete 0) loaded with
  | Some s => s
  | None => loaded
  end.

(** ... and then on the delete button of the second order. *)
Definition deleting_a_and_b : System :=
  match fire empty_cart (ClickDelete 1) deleting_a with
  | Some s => s
  | None => deleting_a
  end.

(** The page after the first order was deleted and both reloads settled. *)
Definition after_delete : System :=
  match fire_all empty_cart
          [Settle 0 ResolvedVoid;
           Settle 0 (ResolvedOrders (Some [order_b]));
           Settle 0 (Rejected "timeout")]
          deleting_a with
  | Some s => s
  | None => deleting_a
  end.

(** The page after the confirmed order was saved and both reloads
    settled. *)
Definition confirmed : System :=
  match fire_all empty_cart
          [Settle 0 ResolvedVoid;
           Settle 0 (ResolvedOrders (Some [order_a; order_b]));
           Settle 0 (ResolvedTop [])]
          confirming with
  | Some s => s
  | None => confirming
  end.

(** The request in flight in [deleting_a], with the handler behind it. *)
Definition delete_in_flight : InFlight :=
  nth 0 (pool deleting_a) (mkInFlight GetTopTapas (fun _ => Ret tt)).

(** The page once the delete of the first order resolved, its reload of
    the orders in flight. *)
Definition deleted_reloading : System :=
  match fire empty_cart (Settle 0 ResolvedVoid) deleting_a with
  | Some s => s
  | None => deleting_a
  end.

(** A [clearOrder] that would leave the cart as it is. *)
Definition keep_cart (st : Store) : Store := st.

(** With such a store: the page right after [saveOrder] resolved, the
    reload of the orders in flight. *)
Definition just_saved : System :=
  match fire_all keep_cart
          [Settle 0 (ResolvedOrders (Some [order_a]));
           Settle 0 (ResolvedTop []);
           ClickConfirm;
           Settle 0 ResolvedVoid]
          (mounted keep_cart (mkStore (Some ana) [coke; tapa])) with
  | Some s => s
  | None => mounted keep_cart (mkStore (Some ana) [coke; tapa])
  end.

(** ... and once both reloads settled. *)
Definition saved_and_reloaded : System :=
  match fire_all keep_cart
          [Settle 0 (ResolvedOrders (Some [order_a; order_b]));
           Settle 0 (Rejected "timeout")]
          just_saved with
  | Some s => s
  | None => just_saved
  end.

(* ================================================================= *)
(** ** Part 3: the payable total, proved *)

Section TotalFacts.
Context {num : Type} `{Arith num}.

Lemma calculateTotal_from (items : list (OrderItem num)) (acc : num) :
  fold_left
    (fun total item =>
       if chargeable item
       then add total (mul (price item) (quantity item))
       else total)
    items acc
  = fold_left add (map line_amount (filter chargeable items)) acc.
Proof.
  revert acc.
  induction items as [|it rest IH]; intro acc; simpl; [reflexivity|].
  destruct (chargeable it); simpl; apply IH.
Qed.

End TotalFacts.

(** **** C1 *)

(** C1: for every sequence of items, [calculateTotal] is the sum of
    price times quantity over exactly the items whose category is not
    ["tapas"]; the empty sequence gives [0]; the result is that sum itself,
    with no rounding step applied to it.  Stated for every arithmetic, so in
    particular for JavaScript numbers. *)
Theorem calculateTotal_is_payable_sum :
  forall (num : Type) (A : Arith num) (items : list (OrderItem num)),
    calculateTotal items = payable_sum items
    /\ calculateTotal (@nil (OrderItem num)) = zero.
Proof.
  intros num A items. split; [|reflexivity].
  unfold calculateTotal, payable_sum. apply calculateTotal_from.
Qed.

(** The example of the specification: a drink at 2 taken twice and a tapa
    at 1 taken five times cost 4. *)
Example calculateTotal_coke_tapa :
  calculateTotal
    [ mkItem "Coke" "drinks" 2%float 2%float;
      mkItem "Tapa1" "tapas" 1%float 5%float ] = 4%float.
Proof. reflexivity. Qed.

(** Tapas lines are skipped whatever their price and quantity. *)
Lemma calculateTotal_skips_tapas :
  forall (num : Type) (A : Arith num) (before after : list (OrderItem num))
         (n : string) (p q : num),
    calculateTotal (before ++ mkItem n "tapas" p q :: after)
    = calculateTotal (before ++ after).
Proof.
  intros num A before after n p q. unfold calculateTotal.
  rewrite !calculateTotal_from, !filter_app. reflexivity.
Qed.

(** **** C8 *)

Example calculateTotal_dimes :
  calculateTotal dimes = 0x1.3333333333334p-1%float
  /\ calculateTotal (rev dimes) = 0x1.3333333333333p-1%float.
Proof. split; reflexivity. Qed.

(** C8, as stated, fails on JavaScript numbers: the three drinks above and
    the same three in reverse order are permutations of each other (and have
    no tapas line), yet their totals differ, 0.6000000000000001 against
    0.6, because binary64 addition is not associative. *)
Lemma calculateTotal_not_permutation_invariant :
  Permutation dimes (rev dimes)
  /\ filter chargeable dimes = dimes
  /\ calculateTotal dimes <> calculateTotal (rev dimes).
Proof.
  split; [apply Permutation_rev|]. split; [reflexivity|].
  intro E.
  apply (f_equal (fun x => PrimFloat.eqb x (calculateTotal (rev dimes)))) in E.
  vm_compute in E. discriminate E.
Qed.

(** Whole amounts do not help: 2^53, 1 and 1 total 2^53 in this order
    and 2^53 + 2 in the reverse order. *)
Example calculateTotal_whole_amounts :
  calculateTotal whole_amounts = 9007199254740992%float
  /\ calculateTotal (rev whole_amounts) = 9007199254740994%float.
Proof. split; reflexivity. Qed.

(** C8, amended: the total depends on the non-tapas items only, taken in
    their order.  Two sequences with the same non-tapas items in the same
    order have the same total, whatever tapas items they hold and wherever
    these stand; in particular the name, the price and the quantity of a
    tapas item can be changed, and the item removed, without changing the
    total.  Nothing is promised when the non-tapas items themselves are
    reordered.  Proved for every arithmetic, so for JavaScript numbers. *)
Theorem calculateTotal_chargeable_only :
  forall (num : Type) (A : Arith num) (l1 l2 : list (OrderItem num)),
    (filter chargeable l1 = filter chargeable l2 ->
     calculateTotal l1 = calculateTotal l2)
    /\ (forall (before after : list (OrderItem num))
               (n n' : string) (p q p' q' : num),
          calculateTotal (before ++ mkItem n "tapas" p q :: after)
          = calculateTotal (before ++ mkItem n' "tapas" p' q' :: after)
          /\ calculateTotal (before ++ mkItem n "tapas" p q :: after)
             = calculateTotal (before ++ after)).
Proof.
  intros num A l1 l2. split.
  - intro Hsame. unfold calculateTotal.
    rewrite !calculateTotal_from, Hsame. reflexivity.
  - intros before after n n' p q p' q'.
    rewrite !calculateTotal_skips_tapas. split; reflexivity.
Qed.

Lemma calculateTotal_chargeable_only_witness :
  calculateTotal
    [ mkItem "Tapa1" "tapas" 1%float 5%float;
      mkItem "Coke" "drinks" 2%float 2%float;
      mkItem "Beer" "drinks" 0x1.4p+1%float 1%float ]
  = calculateTotal
      [ mkItem "Coke" "drinks" 2%float 2%float;
        mkItem "Tapa2" "tapas" 3%float 1%float;
        mkItem "Beer" "drinks" 0x1.4p+1%float 1%float;
        mkItem "Tapa3" "tapas" 0x1.999999999999ap-4%float 7%float ].
Proof.
  apply (proj1 (calculateTotal_chargeable_only float js_number _ _)).
  reflexivity.
Defined.

(* ================================================================= *)
(** ** Part 4: the handlers, one at a time *)

Section HandlerFacts.

Variable clearOrder : Store -> Store.
Variable B : Type.
Variable serve : forall r : Request, B -> (Err + Reply r) * B.

Lemma log_perform (evs : list Event) (w : World) :
  log (perform clearOrder evs w) = log w ++ evs.
Proof.
  unfold perform. revert w.
  induction evs as [|ev evs IH]; intro w; simpl.
  - symmetry. apply app_nil_r.
  - rewrite IH.
    destruct ev; simpl; rewrite <- app_assoc; reflexivity.
Qed.

Lemma perform_app (evs1 evs2 : list Event) (w : World) :
  perform clearOrder (evs1 ++ evs2) w
  = perform clearOrder evs2 (perform clearOrder evs1 w).
Proof. unfold perform. apply fold_left_app. Qed.

(** Sequencing: the second part runs from where the first one returned,
    and not at all when the first one threw. *)
Lemma exec_bind {X Y : Type} (m : Async X) (f : X -> Async Y) :
  forall (b : B) (w : World),
    exec clearOrder serve (bind m f) b w
    = match exec clearOrder serve m b w with
      | (inl e, b', w') => (inl e, b', w')
      | (inr x, b', w') => exec clearOrder serve (f x) b' w'
      end.
Proof.
  induction m as [x|e|e k IH|r k IH]; intros b w; simpl;
    try reflexivity.
  - apply IH.
  - destruct (serve r b) as [res b']. apply IH.
Qed.

(** A [catch] block runs exactly when the [try] block threw. *)
Lemma exec_try_catch {X : Type} (m : Async X) (h : Err -> Async X) :
  forall (b : B) (w : World),
    exec clearOrder serve (try_catch m h) b w
    = match exec clearOrder serve m b w with
      | (inl e, b', w') => exec clearOrder serve (h e) b' w'
      | (inr x, b', w') => (inr x, b', w')
      end.
Proof.
  induction m as [x|e|e k IH|r k IH]; intros b w; simpl.
  - reflexivity.
  - destruct (exec clearOrder serve (h e) b w) as [[[e'|x] b'] w'];
      reflexivity.
  - apply IH.
  - destruct (serve r b) as [res b']. apply IH.
Qed.

(** A [finally] block that neither throws nor awaits runs on both exits
    and leaves the exit as it was. *)
Lemma exec_try_finally_eff {X : Type} (m : Async X) (c : Effect) :
  forall (b : B) (w : World),
    exec clearOrder serve (try_finally m (eff c)) b w
    = match exec clearOrder serve m b w with
      | (res, b', w') => (res, b', apply_effect clearOrder c w')
      end.
Proof.
  induction m as [x|e|e k IH|r k IH]; intros b w; simpl;
    try reflexivity.
  - apply IH.
  - destruct (serve r b) as [res b']. apply IH.
Qed.

Lemma exec_eff (e : Effect) (b : B) (w : World) :
  exec clearOrder serve (eff e) b w = (inr tt, b, apply_effect clearOrder e w).
Proof. reflexivity. Qed.

Lemma exec_call (r : Request) (b : B) (w : World) :
  exec clearOrder serve (call r) b w
  = (fst (serve r b), snd (serve r b), record_request r w).
Proof.
  simpl. destruct (serve r b) as [[e|v] b']; reflexivity.
Qed.

(** [loadOrders()] always returns; its history is [loadOrders_events]. *)
Lemma exec_loadOrders (b : B) (w : World) :
  exec clearOrder serve loadOrders b w
  = (inr tt, snd (serve GetAllOrders b),
     perform clearOrder (loadOrders_events (fst (serve GetAllOrders b))) w).
Proof.
  unfold loadOrders. simpl.
  destruct (serve GetAllOrders b) as [[e|orders] b']; reflexivity.
Qed.

(** [loadTopTapas()] always returns; its history is
    [loadTopTapas_events]. *)
Lemma exec_loadTopTapas (b : B) (w : World) :
  exec clearOrder serve loadTopTapas b w
  = (inr tt, snd (serve GetTopTapas b),
     perform clearOrder (loadTopTapas_events (fst (serve GetTopTapas b))) w).
Proof.
  unfold loadTopTapas. simpl.
  destruct (serve GetTopTapas b) as [[e|top] b']; reflexivity.
Qed.

(** Reloading the history and the ranking, as the delete and the confirm
    handlers do after their own request succeeded. *)
Lemma exec_reload {X : Type} (rest : Async X) (b : B) (w : World) :
  exec clearOrder serve (loadOrders ;; loadTopTapas ;; rest) b w
  = let b1 := snd (serve GetAllOrders b) in
    exec clearOrder serve rest (snd (serve GetTopTapas b1))
      (perform clearOrder
         (loadOrders_events (fst (serve GetAllOrders b))
          ++ loadTopTapas_events (fst (serve GetTopTapas b1))) w).
Proof.
  rewrite exec_bind, exec_loadOrders, exec_bind, exec_loadTopTapas.
  cbv zeta. rewrite perform_app. reflexivity.
Qed.

(** [handleConfirmOrder] with no customer: the [throw] is reached before
    any request, the [catch] and [finally] blocks run. *)
Lemma exec_confirm_no_customer (cart : list Item) (b : B) (w : World) :
  exec clearOrder serve (handleConfirmOrder None cart) b w
  = (inr tt, b, perform clearOrder (no_customer_events) w).
Proof. reflexivity. Qed.

(** [handleConfirmOrder] when [saveOrder] rejects with [err]. *)
Lemma exec_confirm_rejected (c : Customer) (cart : list Item) (err : Err)
    (b : B) (w : World) :
  fst (serve (SaveOrder (customer_id c) cart) b) = inl err ->
  exec clearOrder serve (handleConfirmOrder (Some c) cart) b w
  = (inr tt, snd (serve (SaveOrder (customer_id c) cart) b),
     perform clearOrder (save_rejected_events c cart err) w).
Proof.
  intro Hsave. unfold handleConfirmOrder, confirm_body. simpl.
  destruct (serve (SaveOrder (customer_id c) cart) b) as [res b1].
  simpl in Hsave. subst res. reflexivity.
Qed.

(** [handleConfirmOrder] when [saveOrder] resolves. *)
Lemma exec_confirm_saved (c : Customer) (cart : list Item)
    (b : B) (w : World) :
  fst (serve (SaveOrder (customer_id c) cart) b) = inr tt ->
  let b1 := snd (serve (SaveOrder (customer_id c) cart) b) in
  let b2 := snd (serve GetAllOrders b1) in
  exec clearOrder serve (handleConfirmOrder (Some c) cart) b w
  = (inr tt, snd (serve GetTopTapas b2),
     perform clearOrder
       (saved_events c cart (fst (serve GetAllOrders b1))
                            (fst (serve GetTopTapas b2))) w).
Proof.
  intros Hsave b1 b2. subst b1 b2.
  unfold handleConfirmOrder, confirm_body.
  rewrite exec_try_finally_eff, exec_try_catch.
  rewrite exec_bind, exec_eff. cbv iota beta.
  rewrite exec_bind, exec_eff. cbv iota beta.
  rewrite exec_bind, exec_call, Hsave. cbv iota beta.
  rewrite exec_bind, exec_eff. cbv iota beta.
  rewrite exec_bind, exec_eff. cbv iota beta.
  rewrite exec_reload. cbv zeta. rewrite exec_eff.
  unfold saved_events. rewrite !perform_app. reflexivity.
Qed.

(** [handleDeleteOrder] when [deleteOrder] rejects with [err]. *)
Lemma exec_delete_rejected (orderId : string) (err : Err)
    (b : B) (w : World) :
  fst (serve (DeleteOrder orderId) b) = inl err ->
  exec clearOrder serve (handleDeleteOrder orderId) b w
  = (inr tt, snd (serve (DeleteOrder orderId) b),
     perform clearOrder (delete_rejected_events orderId err) w).
Proof.
  intro Hdel. unfold handleDeleteOrder. simpl.
  destruct (serve (DeleteOrder orderId) b) as [res b1].
  simpl in Hdel. subst res. reflexivity.
Qed.

(** [handleDeleteOrder] when [deleteOrder] resolves. *)
Lemma exec_delete_done (orderId : string) (b : B) (w : World) :
  fst (serve (DeleteOrder orderId) b) = inr tt ->
  let b1 := snd (serve (DeleteOrder orderId) b) in
  let b2 := snd (serve GetAllOrders b1) in
  exec clearOrder serve (handleDeleteOrder orderId) b w
  = (inr tt, snd (serve GetTopTapas b2),
     perform clearOrder
       (deleted_events orderId (fst (serve GetAllOrders b1))
                               (fst (serve GetTopTapas b2))) w).
Proof.
  intros Hdel b1 b2. subst b1 b2.
  unfold handleDeleteOrder.
  rewrite exec_try_finally_eff, exec_try_catch.
  rewrite exec_bind, exec_eff. cbv iota beta.
  rewrite exec_bind, exec_call, Hdel. cbv iota beta.
  rewrite exec_bind, exec_loadOrders. cbv iota beta.
  rewrite exec_loadTopTapas.
  unfold deleted_events. rewrite !perform_app. reflexivity.
Qed.

End HandlerFacts.

(** **** C2 *)

(** C2: when the confirm handler runs with no customer selected, the
    [try] block throws "No customer selected" after its two setters and
    before any request; the handler then finishes without ever suspending:
    its whole history holds no request, so [saveOrder] is not called, and
    the backend is left as it was. *)
Theorem confirm_without_customer_never_saves :
  forall (clearOrder : Store -> Store) (B : Type)
         (serve : forall r : Request, B -> (Err + Reply r) * B)
         (cart : list Item) (b : B) (w : World),
    run_sync clearOrder (confirm_body None cart) w
    = (perform clearOrder [Did (SetIsSaving true); Did (SetError None)] w,
       Finished (inl "No customer selected"))
    /\ run_sync clearOrder (handleConfirmOrder None cart) w
       = (perform clearOrder no_customer_events w, Finished (inr tt))
    /\ exec clearOrder serve (handleConfirmOrder None cart) b w
       = (inr tt, b, perform clearOrder no_customer_events w)
    /\ log (perform clearOrder no_customer_events w)
       = log w ++ no_customer_events
    /\ requests_of no_customer_events = [].
Proof.
  intros clearOrder B serve cart b w.
  repeat split; try reflexivity.
  apply log_perform.
Qed.

(** **** C3 *)

(** C3: when [saveOrder] rejects, the confirm handler returns normally,
    the cart is what it was ([clearOrder] is not among the effects), the
    error message is set, no navigation is scheduled, [isSaving] is false
    and [savedSuccessfully] is untouched, so that the confirm button is
    enabled again whenever it is rendered. *)
Theorem confirm_save_failure_keeps_cart :
  forall (clearOrder : Store -> Store) (B : Type)
         (serve : forall r : Request, B -> (Err + Reply r) * B)
         (c : Customer) (cart : list Item) (err : Err) (b : B) (w : World),
    fst (serve (SaveOrder (customer_id c) cart) b) = inl err ->
    let result := exec clearOrder serve (handleConfirmOrder (Some c) cart) b w in
    let w' := snd result in
    fst (fst result) = inr tt
    /\ store w' = store w
    /\ log w' = log w ++ save_rejected_events c cart err
    /\ existsb (fun e => match e with ClearOrder => true | _ => false end)
               (effects_of (save_rejected_events c cart err)) = false
    /\ error (view w') = Some save_failed_message
    /\ isSaving (view w') = false
    /\ savedSuccessfully (view w') = savedSuccessfully (view w)
    /\ timers w' = timers w
    /\ confirm_clickable w' = confirm_rendered w.
Proof.
  intros clearOrder B serve c cart err b w Hsave result w'.
  subst w' result.
  rewrite (exec_confirm_rejected clearOrder B serve c cart err b w Hsave).
  cbn [fst snd].
  repeat split; try reflexivity.
  - apply log_perform.
  - unfold confirm_clickable, confirm_disabled, confirm_rendered. simpl.
    apply andb_true_r.
Qed.

Lemma confirm_save_failure_keeps_cart_witness :
  let result :=
    exec empty_cart backend_down
         (handleConfirmOrder (Some ana) [coke; tapa]) tt ready_world in
  store (snd result) = mkStore (Some ana) [coke; tapa]
  /\ isSaving (view (snd result)) = false
  /\ error (view (snd result)) = Some save_failed_message
  /\ confirm_clickable (snd result) = true.
Proof.
  pose proof (confirm_save_failure_keeps_cart empty_cart unit backend_down
                ana [coke; tapa] "network down" tt ready_world eq_refl) as H.
  cbv zeta in H.
  destruct H as (_ & Hstore & _ & _ & Herr & Hsaving & _ & _ & Hclick).
  cbv zeta. repeat split; assumption.
Defined.

(** **** C5 *)

(** C5: when [saveOrder] resolves, the history of the confirm handler is,
    in this order: the request, [setSavedSuccessfully(true)], [clearOrder()]
    right after it, the reload of the orders, the reload of the top items,
    and only then [setTimeout(navigate "/", 2000)], once, before the final
    [setIsSaving(false)]; the cart is the cleared one and exactly one timer
    was added.  When [saveOrder] rejects, no timer is added and no
    [setTimeout] is among the effects. *)
Theorem confirm_success_sequence :
  forall (clearOrder : Store -> Store) (B : Type)
         (serve : forall r : Request, B -> (Err + Reply r) * B)
         (c : Customer) (cart : list Item) (b : B) (w : World),
    let save := serve (SaveOrder (customer_id c) cart) b in
    let orders := serve GetAllOrders (snd save) in
    let top := serve GetTopTapas (snd orders) in
    let w' := snd (exec clearOrder serve (handleConfirmOrder (Some c) cart) b w) in
    (fst save = inr tt ->
       log w' = log w
                ++ [Did (SetIsSaving true); Did (SetError None);
                    Requested (SaveOrder (customer_id c) cart);
                    Did (SetSavedSuccessfully true); Did ClearOrder]
                ++ loadOrders_events (fst orders)
                ++ loadTopTapas_events (fst top)
                ++ [Did (SetTimeout (Navigate "/") 2000);
                    Did (SetIsSaving false)]
       /\ savedSuccessfully (view w') = true
       /\ store w' = clearOrder (store w)
       /\ timers w' = timers w ++ [(Navigate "/", 2000%Z)])
    /\ (forall err : Err,
          fst save = inl err ->
          timers w' = timers w
          /\ log w' = log w ++ save_rejected_events c cart err
          /\ existsb (fun e => match e with SetTimeout _ _ => true | _ => false end)
                     (effects_of (save_rejected_events c cart err)) = false).
Proof.
  intros clearOrder B serve c cart b w save orders top w'.
  subst w' top orders save. split.
  - intro Hsave.
    rewrite (exec_confirm_saved clearOrder B serve c cart b w Hsave).
    cbn [snd]. split; [apply log_perform|].
    unfold saved_events.
    destruct (fst (serve GetAllOrders _)) as [e1|os];
      destruct (fst (serve GetTopTapas _)) as [e2|ts];
      repeat split; reflexivity.
  - intros err Hsave.
    rewrite (exec_confirm_rejected clearOrder B serve c cart err b w Hsave).
    cbn [snd]. repeat split; try reflexivity. apply log_perform.
Qed.

Lemma confirm_success_sequence_witness :
  let w' :=
    snd (exec empty_cart backend_up
              (handleConfirmOrder (Some ana) [coke; tapa]) [order_a]
              ready_world) in
  (store w' = mkStore None []
   /\ timers w' = [(Navigate "/", 2000%Z)]
   /\ savedSuccessfully (view w') = true)
  /\ timers (snd (exec empty_cart backend_down
                       (handleConfirmOrder (Some ana) [coke; tapa]) tt
                       ready_world)) = [].
Proof.
  split.
  - destruct (proj1 (confirm_success_sequence empty_cart (list Order)
                       backend_up ana [coke; tapa] [order_a] ready_world)
                    eq_refl) as (_ & Hsaved & Hstore & Htimers).
    cbv zeta. repeat split; assumption.
  - exact (proj1 (proj2 (confirm_success_sequence empty_cart unit
                           backend_down ana [coke; tapa] tt ready_world)
                        "network down" eq_refl)).
Defined.

(** **** C9 *)

(** C9: a rejected [getAllOrders] leaves [allOrders] as it was, and a
    rejected [getTopTapas] leaves [topTapas] as it was: the histories of
    the failed loads hold no [setAllOrders] and no [setTopTapas]. *)
Theorem failed_load_keeps_data :
  forall (clearOrder : Store -> Store) (B : Type)
         (serve : forall r : Request, B -> (Err + Reply r) * B)
         (err : Err) (b : B) (w : World),
    (fst (serve GetAllOrders b) = inl err ->
       let w' := snd (exec clearOrder serve loadOrders b w) in
       allOrders (view w') = allOrders (view w)
       /\ log w' = log w
                   ++ [Did (SetIsLoading true); Requested GetAllOrders;
                       Did (ConsoleError "Error loading orders:" err);
                       Did (SetError (Some "Error al cargar los pedidos"));
                       Did (SetIsLoading false)])
    /\ (fst (serve GetTopTapas b) = inl err ->
          let w' := snd (exec clearOrder serve loadTopTapas b w) in
          topTapas (view w') = topTapas (view w)
          /\ log w' = log w
                      ++ [Requested GetTopTapas;
                          Did (ConsoleError "Error loading top tapas:" err)]).
Proof.
  intros clearOrder B serve err b w. split; intros Hfail w'; subst w'.
  - rewrite exec_loadOrders, Hfail. cbn [snd]. split; [reflexivity|].
    apply log_perform.
  - rewrite exec_loadTopTapas, Hfail. cbn [snd]. split; [reflexivity|].
    apply log_perform.
Qed.

Lemma failed_load_keeps_data_witness :
  allOrders (view (snd (exec empty_cart backend_down loadOrders tt
                             ready_world))) = [order_a; order_b]
  /\ topTapas (view (snd (exec empty_cart backend_down loadTopTapas tt
                               ready_world))) = [].
Proof.
  pose proof (failed_load_keeps_data empty_cart unit backend_down
                "network down" tt ready_world) as [Horders Htop].
  split.
  - exact (proj1 (Horders eq_refl)).
  - exact (proj1 (Htop eq_refl)).
Defined.

(** **** C10 *)

(** C10: when [getAllOrders] resolves with [null] or [undefined],
    [loadOrders] sets the history to the empty list. *)
Theorem null_orders_become_empty :
  forall (clearOrder : Store -> Store) (B : Type)
         (serve : forall r : Request, B -> (Err + Reply r) * B)
         (b : B) (w : World),
    fst (serve GetAllOrders b) = inr None ->
    let w' := snd (exec clearOrder serve loadOrders b w) in
    allOrders (view w') = []
    /\ log w' = log w
                ++ [Did (SetIsLoading true); Requested GetAllOrders;
                    Did (SetAllOrders []); Did (SetIsLoading false)].
Proof.
  intros clearOrder B serve b w Hnull w'. subst w'.
  rewrite exec_loadOrders, Hnull. cbn [snd]. split; [reflexivity|].
  apply log_perform.
Qed.

Lemma null_orders_become_empty_witness :
  allOrders (view (snd (exec empty_cart backend_null loadOrders tt
                             ready_world))) = [].
Proof.
  exact (proj1 (null_orders_become_empty empty_cart unit backend_null tt
                  ready_world eq_refl)).
Defined.

(* ================================================================= *)
(** ** Part 5: the event loop *)

(** **** C7 *)

(** C7: mounting enters Loading with both fetches in flight.  Whichever
    settles first and however they settle, the page ends with no request in
    flight and [isLoading] false.  The error cell is set exactly when the
    orders fetch was rejected; a rejected top-items fetch is logged with
    [console.error] and leaves the error cell and [isLoading] alone. *)
Theorem initial_load_reaches_ready :
  forall (clearOrder : Store -> Store) (st : Store) (orders_first : bool)
         (ro : Err + option (list Order)) (rt : Err + list (string * float)),
    isLoading (view (world (mounted clearOrder st))) = true
    /\ map request (pool (mounted clearOrder st)) = [GetAllOrders; GetTopTapas]
    /\ exists s : System,
         fire_all clearOrder (initial_load orders_first ro rt)
                  (mounted clearOrder st) = Some s
         /\ pool s = []
         /\ isLoading (view (world s)) = false
         /\ error (view (world s))
            = match ro with
              | inl _ => Some "Error al cargar los pedidos"
              | inr _ => None
              end
         /\ allOrders (view (world s))
            = match ro with
              | inl _ => []
              | inr orders => or_empty orders
              end
         /\ match rt with
            | inl e =>
                In (Did (ConsoleError "Error loading top tapas:" e))
                   (log (world s))
                /\ topTapas (view (world s)) = []
            | inr top => topTapas (view (world s)) = top
            end.
Proof.
  intros clearOrder st orders_first ro rt.
  split; [reflexivity|]. split; [reflexivity|].
  destruct orders_first, ro as [e1|orders], rt as [e2|top];
    (eexists; split; [reflexivity|]);
    cbn; repeat split; try reflexivity; auto 10.
Qed.

(* ----------------------------------------------------------------- *)
(** *** One save at a time: the invariant *)

Lemma quiet_loadOrders : quiet loadOrders.
Proof.
  simpl. repeat split. intros [e|[l|]]; simpl; repeat split.
Qed.

Lemma quiet_loadTopTapas : quiet loadTopTapas.
Proof.
  simpl. repeat split. intros [e|top]; simpl; repeat split.
Qed.

Lemma quiet_handleDeleteOrder (orderId : string) :
  quiet (handleDeleteOrder orderId).
Proof.
  simpl. repeat split. intros [e|[]]; simpl; repeat split.
  intros [e|[l|]]; simpl; repeat split;
    intros [e'|top]; simpl; repeat split.
Qed.

Lemma saving_handleConfirmOrder (held : bool) (c : option Customer)
    (cart : list Item) :
  saving held (handleConfirmOrder c cart).
Proof.
  destruct c as [c|]; simpl; [|reflexivity].
  repeat split. intros [e|[]]; simpl; repeat split.
  intros [e|[l|]]; simpl; repeat split;
    intros [e'|top]; simpl; repeat split.
Qed.

Lemma remove_nth_split {X : Type} (l : list X) (i : nat) (x : X) :
  nth_error l i = Some x ->
  exists l1 l2, l = l1 ++ x :: l2 /\ remove_nth i l = l1 ++ l2.
Proof.
  revert i. induction l as [|y l IH]; intros [|i] Hnth; simpl in Hnth;
    try discriminate.
  - injection Hnth as ->. exists [], l. split; reflexivity.
  - destruct (IH i Hnth) as (l1 & l2 & -> & Hrm).
    exists (y :: l1), l2. split; [reflexivity|].
    unfold remove_nth in *. simpl. f_equal. exact Hrm.
Qed.

Lemma in_flight_Permutation (kind : Request -> bool) (p q : list InFlight) :
  Permutation p q ->
  List.length (filter kind (map request p))
  = List.length (filter kind (map request q)).
Proof.
  induction 1 as [|x p q _ IH|x y p|p q r _ IH1 _ IH2]; simpl.
  - reflexivity.
  - destruct (kind (request x)); simpl; congruence.
  - destruct (kind (request x)), (kind (request y)); reflexivity.
  - congruence.
Qed.

Lemma quiet_entries_not_saving (qs : list InFlight) :
  Forall quiet_entry qs -> filter is_save (map request qs) = [].
Proof.
  induction 1 as [|f qs [Hf _] _ IH]; simpl; [reflexivity|].
  rewrite Hf. exact IH.
Qed.

Section EventLoopFacts.

Variable clearOrder : Store -> Store.

Lemma run_sync_quiet (t : Async unit) :
  quiet t ->
  forall w : World,
    isSaving (view (fst (run_sync clearOrder t w))) = isSaving (view w)
    /\ match snd (run_sync clearOrder t w) with
       | Finished _ => True
       | Suspended r k => quiet_entry (mkInFlight r k)
       end.
Proof.
  induction t as [x|e|e k IH|r k IH]; simpl; intros Hq w.
  - split; reflexivity || exact I.
  - split; reflexivity || exact I.
  - destruct Hq as [He Hk].
    destruct (IH Hk (apply_effect clearOrder e w)) as [Hsame Hout].
    split; [|exact Hout].
    rewrite Hsame. destruct e; simpl; reflexivity || contradiction.
  - split; [reflexivity|exact Hq].
Qed.

Lemma run_sync_saving (t : Async unit) :
  forall w : World,
    saving (isSaving (view w)) t ->
    match run_sync clearOrder t w with
    | (w', Finished _) => isSaving (view w') = false
    | (w', Suspended r k) =>
        isSaving (view w') = true /\ saving_entry (mkInFlight r k)
    end.
Proof.
  induction t as [x|e|e k IH|r k IH]; simpl; intros w Hs.
  - exact Hs.
  - exact Hs.
  - apply IH. destruct e; exact Hs.
  - exact Hs.
Qed.

Lemma spawn_quiet (t : Async unit) (w : World) (pl qs : list InFlight) :
  quiet t ->
  Forall quiet_entry qs ->
  Permutation pl qs
  \/ (isSaving (view w) = true
      /\ exists f, saving_entry f /\ Permutation pl (f :: qs)) ->
  one_saver (spawn clearOrder t (mkSystem w pl)).
Proof.
  intros Hq Hqs Hpool. unfold spawn. simpl.
  destruct (run_sync_quiet t Hq w) as [Hsame Hout].
  destruct (run_sync clearOrder t w) as [w' [res|r k]]; simpl in *.
  - exists qs. split; [exact Hqs|]. simpl. rewrite Hsame. exact Hpool.
  - exists (qs ++ [mkInFlight r k]). split.
    + apply Forall_app. split; [exact Hqs|]. constructor; [exact Hout|constructor].
    + simpl. rewrite Hsame.
      destruct Hpool as [HP|(Hbusy & f & Hf & HP)].
      * left. apply Permutation_app_tail, HP.
      * right. split; [exact Hbusy|]. exists f. split; [exact Hf|].
        apply (Permutation_app_tail [mkInFlight r k]) in HP. exact HP.
Qed.

Lemma spawn_saving (t : Async unit) (w : World) (pl qs : list InFlight) :
  saving (isSaving (view w)) t ->
  Forall quiet_entry qs ->
  Permutation pl qs ->
  one_saver (spawn clearOrder t (mkSystem w pl)).
Proof.
  intros Hs Hqs HP. unfold spawn. simpl.
  pose proof (run_sync_saving t w Hs) as Hrun.
  destruct (run_sync clearOrder t w) as [w' [res|r k]]; simpl in *.
  - exists qs. split; [exact Hqs|]. left. exact HP.
  - destruct Hrun as [Hbusy Hentry].
    exists qs. split; [exact Hqs|]. right. split; [exact Hbusy|].
    exists (mkInFlight r k). split; [exact Hentry|].
    transitivity (mkInFlight r k :: pl).
    + symmetry. apply Permutation_cons_append.
    + apply perm_skip, HP.
Qed.

Lemma one_saver_mounted (st : Store) : one_saver (mounted clearOrder st).
Proof.
  unfold mounted.
  pose proof (spawn_quiet loadOrders (mkWorld initial_view st [] []) [] []
                quiet_loadOrders (Forall_nil _) (or_introl (perm_nil _)))
    as (qs & Hqs & Hpool).
  destruct (spawn clearOrder loadOrders _) as [w pl].
  apply (spawn_quiet loadTopTapas w pl qs quiet_loadTopTapas Hqs Hpool).
Qed.

Lemma one_saver_fire (a : Action) (s s' : System) :
  one_saver s -> fire clearOrder a s = Some s' -> one_saver s'.
Proof.
  intros (qs & Hqs & Hpool) Hfire.
  destruct s as [w pl]. destruct a as [i how| |j]; simpl in *.
  - destruct (nth_error pl i) as [f|] eqn:Hnth; [|discriminate].
    destruct (settle (request f) how) as [res|]; [|discriminate].
    injection Hfire as <-.
    destruct (remove_nth_split pl i f Hnth) as (p1 & p2 & -> & ->).
    assert (Hmid : Permutation (f :: p1 ++ p2) (p1 ++ f :: p2))
      by apply Permutation_middle.
    destruct Hpool as [HP|(Hbusy & g & Hg & HP)].
    + assert (Hall : Forall quiet_entry (f :: p1 ++ p2)).
      { eapply Permutation_Forall; [|exact Hqs].
        symmetry. transitivity (p1 ++ f :: p2); assumption. }
      inversion Hall as [|? ? Hf Hrest]; subst.
      apply (spawn_quiet (resume f res) w (p1 ++ p2) (p1 ++ p2));
        [apply Hf|exact Hrest|left; reflexivity].
    + assert (HP' : Permutation (f :: p1 ++ p2) (g :: qs))
        by (transitivity (p1 ++ f :: p2); assumption).
      assert (Hin : In f (g :: qs))
        by (apply (Permutation_in f HP'); left; reflexivity).
      destruct Hin as [->|Hin].
      * apply Permutation_cons_inv in HP'.
        apply (spawn_saving (resume f res) w (p1 ++ p2) qs);
          [rewrite Hbusy; apply Hg|exact Hqs|exact HP'].
      * destruct (in_split f qs Hin) as (q1 & q2 & ->).
        assert (Hqs' : Forall quiet_entry (f :: q1 ++ q2)).
        { eapply Permutation_Forall; [|exact Hqs].
          symmetry. apply Permutation_middle. }
        inversion Hqs' as [|? ? Hf Hrest]; subst.
        apply (spawn_quiet (resume f res) w (p1 ++ p2) (q1 ++ q2));
          [apply Hf|exact Hrest|].
        right. split; [exact Hbusy|]. exists g. split; [exact Hg|].
        apply (Permutation_cons_inv (a := f)).
        transitivity (g :: q1 ++ f :: q2); [exact HP'|].
        transitivity (g :: f :: q1 ++ q2); [|apply perm_swap].
        apply perm_skip. symmetry. apply Permutation_middle.
  - destruct (confirm_clickable w) eqn:Hclick; [|discriminate].
    injection Hfire as <-.
    unfold confirm_clickable, confirm_disabled in Hclick.
    apply andb_prop in Hclick. destruct Hclick as [_ Hidle].
    apply negb_true_iff in Hidle.
    destruct Hpool as [HP|(Hbusy & _)]; [|congruence].
    apply (spawn_saving _ w pl qs);
      [apply saving_handleConfirmOrder|exact Hqs|exact HP].
  - destruct (isLoading (view w)); [discriminate|].
    destruct (nth_error (allOrders (view w)) j) as [o|]; [|discriminate].
    destruct (delete_disabled (view w) o); [discriminate|].
    injection Hfire as <-.
    apply (spawn_quiet _ w pl qs);
      [apply quiet_handleDeleteOrder|exact Hqs|exact Hpool].
Qed.

Lemma one_saver_fire_all (acts : list Action) :
  forall s s' : System,
    one_saver s -> fire_all clearOrder acts s = Some s' -> one_saver s'.
Proof.
  induction acts as [|a acts IH]; simpl; intros s s' Hinv Hrun.
  - injection Hrun as <-. exact Hinv.
  - destruct (fire clearOrder a s) as [s1|] eqn:Hfire; [|discriminate].
    apply (IH s1 s'); [|exact Hrun].
    apply (one_saver_fire a s s1 Hinv Hfire).
Qed.

Lemma one_saver_reachable (st : Store) (s : System) :
  reachable clearOrder st s -> one_saver s.
Proof.
  intros [acts Hrun].
  apply (one_saver_fire_all acts _ s (one_saver_mounted st) Hrun).
Qed.

Lemma one_saver_in_flight (s : System) :
  one_saver s ->
  (in_flight is_save s <= 1)%nat
  /\ ((1 <= in_flight is_save s)%nat -> isSaving (view (world s)) = true).
Proof.
  intros (qs & Hqs & Hpool). unfold in_flight.
  pose proof (quiet_entries_not_saving qs Hqs) as Hnone.
  destruct Hpool as [HP|(Hbusy & f & _ & HP)].
  - rewrite (in_flight_Permutation is_save _ _ HP), Hnone. simpl.
    split; [lia|intro; lia].
  - rewrite (in_flight_Permutation is_save _ _ HP). simpl. rewrite Hnone.
    split; [destruct (is_save (request f)); simpl; lia|intros _; exact Hbusy].
Qed.

End EventLoopFacts.

(* ----------------------------------------------------------------- *)
(** *** Busy flags are released: the invariant *)

Lemma busy_upd_view (f : Flag) (e : Effect) (v : View) :
  busy f (upd_view e v)
  = match writes f e with Some b => b | None => busy f v end.
Proof.
  destruct f, e as [| | | | |[i|]| | | |]; reflexivity.
Qed.

(** [loadOrders] sets [isLoading] itself, so it releases the cell even
    when started in the initial view, where the cell is already true. *)
Lemma releases_loadOrders (f : Flag) :
  releases f (busy f initial_view) loadOrders.
Proof.
  destruct f; simpl; intros [e|[l|]]; reflexivity.
Qed.

Lemma releases_loadTopTapas (f : Flag) : releases f false loadTopTapas.
Proof.
  destruct f; simpl; intros [e|top]; reflexivity.
Qed.

Lemma releases_handleDeleteOrder (f : Flag) (orderId : string) :
  releases f false (handleDeleteOrder orderId).
Proof.
  destruct f; simpl; intros [e|[]]; simpl; try reflexivity;
    intros [e|[l|]]; simpl; intros [e'|top]; reflexivity.
Qed.

Lemma releases_handleConfirmOrder (f : Flag) (c : option Customer)
    (cart : list Item) :
  releases f false (handleConfirmOrder c cart).
Proof.
  destruct c as [c|]; [|destruct f; reflexivity].
  destruct f; simpl; intros [e|[]]; simpl; try reflexivity;
    intros [e|[l|]]; simpl; intros [e'|top]; reflexivity.
Qed.

Section ReleaseFacts.

Variable clearOrder : Store -> Store.

Lemma run_sync_releases (f : Flag) (t : Async unit) :
  forall (held : bool) (w : World),
    releases f held t ->
    exists held' : bool,
      ((held' = held
        /\ busy f (view (fst (run_sync clearOrder t w))) = busy f (view w))
       \/ busy f (view (fst (run_sync clearOrder t w))) = held')
      /\ match snd (run_sync clearOrder t w) with
         | Finished _ => held' = false
         | Suspended r k => forall res, releases f held' (k res)
         end.
Proof.
  induction t as [x|e|e k IH|r k IH]; simpl; intros held w Hrel.
  - exists held. split; [left; split; reflexivity|exact Hrel].
  - exists held. split; [left; split; reflexivity|exact Hrel].
  - destruct (IH _ (apply_effect clearOrder e w) Hrel)
      as (held' & Hbusy & Hout).
    exists held'. split; [|exact Hout].
    simpl in Hbusy. rewrite busy_upd_view in Hbusy.
    destruct (writes f e) as [b|].
    + right. destruct Hbusy as [[-> Hsame]|Hlast]; assumption.
    + exact Hbusy.
  - exists held. split; [left; split; reflexivity|exact Hrel].
Qed.

Lemma spawn_settles (f : Flag) (t : Async unit) (w : World)
    (pl : list InFlight) (hs : list bool) (h : bool) :
  Forall2 (fun h e => forall res, releases f h (resume e res)) hs pl ->
  releases f h t ->
  (busy f (view w) = true -> h = true \/ In true hs) ->
  settles f (spawn clearOrder t (mkSystem w pl)).
Proof.
  intros Hpool Hrel Hbusy. unfold spawn. simpl.
  destruct (run_sync_releases f t h w Hrel) as (h' & Hflag & Hout).
  destruct (run_sync clearOrder t w) as [w' [res|r k]]; simpl in *.
  - subst h'. exists hs. split; [exact Hpool|]. simpl. intro Hb.
    destruct Hflag as [[<- Hsame]|Hlast]; [|congruence].
    rewrite Hsame in Hb. destruct (Hbusy Hb) as [Hh|Hin];
      [discriminate|exact Hin].
  - exists (hs ++ [h']). split.
    + apply Forall2_app; [exact Hpool|].
      constructor; [exact Hout|constructor].
    + simpl. intro Hb. apply in_or_app.
      destruct Hflag as [[-> Hsame]|Hlast].
      * rewrite Hsame in Hb. destruct (Hbusy Hb) as [->|Hin];
          [right; left; reflexivity|left; exact Hin].
      * right. left. congruence.
Qed.

Lemma settles_mounted (f : Flag) (st : Store) :
  settles f (mounted clearOrder st).
Proof.
  unfold mounted.
  assert (Hfirst : settles f (spawn clearOrder loadOrders
                                (mkSystem (mkWorld initial_view st [] []) []))).
  { apply (spawn_settles f loadOrders _ [] [] (busy f initial_view)).
    - constructor.
    - apply releases_loadOrders.
    - intro Hb. left. exact Hb. }
  destruct Hfirst as (hs & Hpool & Hbusy).
  destruct (spawn clearOrder loadOrders _) as [w pl].
  apply (spawn_settles f loadTopTapas w pl hs false Hpool).
  - apply releases_loadTopTapas.
  - intro Hb. right. apply Hbusy, Hb.
Qed.

End ReleaseFacts.

Section ReleaseLoop.

Variable clearOrder : Store -> Store.

Lemma settles_fire (f : Flag) (a : Action) (s s' : System) :
  settles f s -> fire clearOrder a s = Some s' -> settles f s'.
Proof.
  intros (hs & Hpool & Hbusy) Hfire.
  destruct s as [w pl]. destruct a as [i how| |j]; simpl in *.
  - destruct (nth_error pl i) as [g|] eqn:Hnth; [|discriminate].
    destruct (settle (request g) how) as [res|]; [|discriminate].
    injection Hfire as <-.
    destruct (remove_nth_split pl i g Hnth) as (p1 & p2 & -> & ->).
    apply Forall2_app_inv_r in Hpool.
    destruct Hpool as (h1 & hrest & Hp1 & Hrest & ->).
    inversion Hrest as [|h ? h2 ? Hg Hp2]; subst.
    apply (spawn_settles clearOrder f (resume g res) w (p1 ++ p2)
             (h1 ++ h2) h).
    + apply Forall2_app; assumption.
    + apply Hg.
    + intro Hb. specialize (Hbusy Hb).
      apply in_app_or in Hbusy. destruct Hbusy as [Hin|[->|Hin]].
      * right. apply in_or_app. left. exact Hin.
      * left. reflexivity.
      * right. apply in_or_app. right. exact Hin.
  - destruct (confirm_clickable w); [|discriminate].
    injection Hfire as <-.
    apply (spawn_settles clearOrder f _ w pl hs false Hpool).
    + apply releases_handleConfirmOrder.
    + intro Hb. right. apply Hbusy, Hb.
  - destruct (isLoading (view w)); [discriminate|].
    destruct (nth_error (allOrders (view w)) j) as [o|]; [|discriminate].
    destruct (delete_disabled (view w) o); [discriminate|].
    injection Hfire as <-.
    apply (spawn_settles clearOrder f _ w pl hs false Hpool).
    + apply releases_handleDeleteOrder.
    + intro Hb. right. apply Hbusy, Hb.
Qed.

Lemma settles_reachable (f : Flag) (st : Store) (s : System) :
  reachable clearOrder st s -> settles f s.
Proof.
  intros [acts Hrun].
  pose proof (settles_mounted clearOrder f st) as Hinit.
  revert Hrun Hinit. generalize (mounted clearOrder st). revert s.
  induction acts as [|a acts IH]; simpl; intros s s0 Hrun Hinv.
  - injection Hrun as <-. exact Hinv.
  - destruct (fire clearOrder a s0) as [s1|] eqn:Hfire; [|discriminate].
    apply (IH s s1 Hrun). apply (settles_fire f a s0 s1 Hinv Hfire).
Qed.

(** With nothing in flight, a busy cell has nobody left to release it:
    it is clear. *)
Lemma settles_idle (f : Flag) (s : System) :
  settles f s -> pool s = [] -> busy f (view (world s)) = false.
Proof.
  intros (hs & Hpool & Hbusy) Hempty. rewrite Hempty in Hpool.
  inversion Hpool; subst.
  destruct (busy f (view (world s))); [|reflexivity].
  destruct (Hbusy eq_refl).
Qed.

(** Clicking the delete button of an order issues one delete request and
    leaves that button disabled. *)
Lemma click_delete_disables (s s' : System) (j : nat) (o : Order) :
  nth_error (allOrders (view (world s))) j = Some o ->
  fire clearOrder (ClickDelete j) s = Some s' ->
  delete_disabled (view (world s')) o = true
  /\ (forall o' : Order,
        order_id o' <> order_id o ->
        delete_disabled (view (world s')) o' = false)
  /\ in_flight is_delete s' = S (in_flight is_delete s).
Proof.
  intros Hnth Hfire. simpl in Hfire. rewrite Hnth in Hfire.
  destruct (isLoading (view (world s))); [discriminate|].
  destruct (delete_disabled (view (world s)) o); [discriminate|].
  injection Hfire as <-. destruct s as [w pl]. unfold spawn. simpl.
  split; [|split].
  - unfold delete_disabled. simpl. apply String.eqb_refl.
  - intros o' Hother. unfold delete_disabled. simpl.
    apply String.eqb_neq. congruence.
  - unfold in_flight. simpl.
    rewrite map_app, filter_app, length_app. simpl. lia.
Qed.

End ReleaseLoop.

Lemma ends_with_perform (clearOrder : Store -> Store) (evs : list Event)
    (ev : Event) (w : World) :
  evs <> [] -> last evs ev = ev ->
  ends_with ev w (perform clearOrder evs w).
Proof.
  intros Hne Hlast. exists (removelast evs).
  rewrite log_perform. f_equal.
  rewrite <- Hlast at 1. apply app_removelast_last, Hne.
Qed.

(** **** C4 *)

(** C4: whatever the backend replies, each handler returns normally and
    its last event is the [finally] step that clears its busy cell:
    [isLoading] is false after [loadOrders], [isSaving] is false after
    [handleConfirmOrder], [isDeletingOrder] is [null] after
    [handleDeleteOrder].  On the event loop, with clicks and replies
    interleaved in any way, every state reached with no request in flight
    has the three cells clear: no state is stuck busy. *)
Theorem busy_flags_cleared :
  forall clearOrder : Store -> Store,
    (forall (B : Type) (serve : forall r : Request, B -> (Err + Reply r) * B)
            (b : B) (w : World),
        (let result := exec clearOrder serve loadOrders b w in
         fst (fst result) = inr tt
         /\ isLoading (view (snd result)) = false
         /\ ends_with (Did (SetIsLoading false)) w (snd result))
        /\ (forall (c : option Customer) (cart : list Item),
              let result :=
                exec clearOrder serve (handleConfirmOrder c cart) b w in
              fst (fst result) = inr tt
              /\ isSaving (view (snd result)) = false
              /\ ends_with (Did (SetIsSaving false)) w (snd result))
        /\ (forall orderId : string,
              let result :=
                exec clearOrder serve (handleDeleteOrder orderId) b w in
              fst (fst result) = inr tt
              /\ isDeletingOrder (view (snd result)) = None
              /\ ends_with (Did (SetIsDeletingOrder None)) w (snd result)))
    /\ (forall (st : Store) (s : System),
          reachable clearOrder st s ->
          pool s = [] ->
          isSaving (view (world s)) = false
          /\ isDeletingOrder (view (world s)) = None
          /\ isLoading (view (world s)) = false).
Proof.
  intro clearOrder. split.
  - intros B serve b w. split; [|split].
    + cbv zeta. rewrite exec_loadOrders. cbn [fst snd].
      split; [reflexivity|].
      destruct (fst (serve GetAllOrders b)) as [e|orders];
        (split; [reflexivity|]);
        (apply ends_with_perform; [discriminate|reflexivity]).
    + intros [c|] cart; cbv zeta.
      * destruct (fst (serve (SaveOrder (customer_id c) cart) b))
          as [e|[]] eqn:Hsave.
        -- rewrite (exec_confirm_rejected _ _ _ _ _ _ _ _ Hsave).
           cbn [fst snd]. repeat split.
           apply ends_with_perform; [discriminate|reflexivity].
        -- rewrite (exec_confirm_saved _ _ _ _ _ _ _ Hsave).
           cbn [fst snd]. split; [reflexivity|].
           destruct (fst (serve GetAllOrders _)) as [e1|os];
             destruct (fst (serve GetTopTapas _)) as [e2|ts];
             (split; [reflexivity|]);
             (apply ends_with_perform; [discriminate|reflexivity]).
      * rewrite exec_confirm_no_customer. cbn [fst snd].
        repeat split.
        apply ends_with_perform; [discriminate|reflexivity].
    + intro orderId. cbv zeta.
      destruct (fst (serve (DeleteOrder orderId) b)) as [e|[]] eqn:Hdel.
      * rewrite (exec_delete_rejected _ _ _ _ _ _ _ Hdel).
        cbn [fst snd]. repeat split.
        apply ends_with_perform; [discriminate|reflexivity].
      * rewrite (exec_delete_done _ _ _ _ _ _ Hdel).
        cbn [fst snd]. split; [reflexivity|].
        destruct (fst (serve GetAllOrders _)) as [e1|os];
          destruct (fst (serve GetTopTapas _)) as [e2|ts];
          (split; [reflexivity|]);
          (apply ends_with_perform; [discriminate|reflexivity]).
  - intros st s Hreach Hidle.
    pose proof (settles_idle FlagSaving s
                  (settles_reachable clearOrder FlagSaving st s Hreach) Hidle)
      as Hsaving.
    pose proof (settles_idle FlagDeleting s
                  (settles_reachable clearOrder FlagDeleting st s Hreach) Hidle)
      as Hdeleting.
    pose proof (settles_idle FlagLoading s
                  (settles_reachable clearOrder FlagLoading st s Hreach) Hidle)
      as Hloading.
    simpl in Hsaving, Hdeleting, Hloading.
    repeat split; try assumption.
    destruct (isDeletingOrder (view (world s))); [discriminate|reflexivity].
Qed.

Lemma busy_flags_cleared_witness :
  pool after_delete = []
  /\ isSaving (view (world after_delete)) = false
  /\ isDeletingOrder (view (world after_delete)) = None
  /\ isLoading (view (world after_delete)) = false.
Proof.
  split; [reflexivity|].
  apply (proj2 (busy_flags_cleared empty_cart)
               (mkStore (Some ana) [coke; tapa]) after_delete).
  - exists [Settle 0 (ResolvedOrders (Some [order_a; order_b]));
            Settle 0 (ResolvedTop []);
            ClickDelete 0;
            Settle 0 ResolvedVoid;
            Settle 0 (ResolvedOrders (Some [order_b]));
            Settle 0 (Rejected "timeout")].
    reflexivity.
  - reflexivity.
Defined.

(** **** C6 *)

(** C6, as stated, fails for deletes.  With the delete of order "A" in
    flight, [isDeletingOrder] is "A", so the delete button of order "B" is
    not disabled; clicking it issues a second delete request while the
    first is still in flight. *)
Lemma second_delete_while_first_in_flight :
  reachable empty_cart (mkStore (Some ana) [coke; tapa]) deleting_a
  /\ map request (pool deleting_a) = [DeleteOrder "A"]
  /\ isDeletingOrder (view (world deleting_a)) = Some "A"
  /\ nth_error (allOrders (view (world deleting_a))) 1 = Some order_b
  /\ delete_disabled (view (world deleting_a)) order_b = false
  /\ fire empty_cart (ClickDelete 1) deleting_a = Some deleting_a_and_b
  /\ map request (pool deleting_a_and_b) = [DeleteOrder "A"; DeleteOrder "B"]
  /\ in_flight is_delete deleting_a_and_b = 2%nat
  /\ ~ (forall s : System,
          reachable empty_cart (mkStore (Some ana) [coke; tapa]) s ->
          (in_flight is_delete s <= 1)%nat).
Proof.
  split.
  { exists [Settle 0 (ResolvedOrders (Some [order_a; order_b]));
            Settle 0 (ResolvedTop []);
            ClickDelete 0].
    reflexivity. }
  repeat (split; [reflexivity|]).
  intro Hmax.
  assert (Hreach : reachable empty_cart (mkStore (Some ana) [coke; tapa])
                             deleting_a_and_b).
  { exists [Settle 0 (ResolvedOrders (Some [order_a; order_b]));
            Settle 0 (ResolvedTop []);
            ClickDelete 0; ClickDelete 1].
    reflexivity. }
  specialize (Hmax deleting_a_and_b Hreach).
  change (in_flight is_delete deleting_a_and_b) with 2%nat in Hmax. lia.
Qed.

(** C6, amended: in every reachable state at most one save request is in
    flight, and while one is in flight [isSaving] is true, the confirm
    button is disabled and a click on it does nothing.  A delete button is
    disabled exactly while [isDeletingOrder] is the id of its own order:
    a click on an enabled delete button issues one delete request and
    leaves that button disabled, while the delete buttons of the other
    orders are left enabled. *)
Theorem one_save_in_flight :
  forall (clearOrder : Store -> Store) (st : Store) (s : System),
    reachable clearOrder st s ->
    (in_flight is_save s <= 1)%nat
    /\ ((1 <= in_flight is_save s)%nat ->
        confirm_disabled (world s) = true
        /\ fire clearOrder ClickConfirm s = None)
    /\ (forall o : Order,
          delete_disabled (view (world s)) o = true
          <-> isDeletingOrder (view (world s)) = Some (order_id o))
    /\ (forall (j : nat) (o : Order) (s' : System),
          nth_error (allOrders (view (world s))) j = Some o ->
          fire clearOrder (ClickDelete j) s = Some s' ->
          delete_disabled (view (world s')) o = true
          /\ (forall o' : Order,
                order_id o' <> order_id o ->
                delete_disabled (view (world s')) o' = false)
          /\ in_flight is_delete s' = S (in_flight is_delete s)).
Proof.
  intros clearOrder st s Hreach.
  destruct (one_saver_in_flight s (one_saver_reachable clearOrder st s Hreach))
    as [Hmax Hbusy].
  split; [exact Hmax|]. split; [|split].
  - intro Hone. specialize (Hbusy Hone).
    split; [exact Hbusy|].
    simpl. unfold confirm_clickable, confirm_disabled.
    rewrite Hbusy, andb_false_r. reflexivity.
  - intro o. unfold delete_disabled.
    destruct (isDeletingOrder (view (world s))) as [i|].
    + rewrite String.eqb_eq. split; [intros ->; reflexivity|].
      intro H. injection H as ->. reflexivity.
    + split; discriminate.
  - intros j o s'. apply click_delete_disables.
Qed.

Lemma one_save_in_flight_witness :
  (map request (pool confirming) = [SaveOrder "c1" [coke; tapa]]
   /\ (in_flight is_save confirming <= 1)%nat
   /\ confirm_disabled (world confirming) = true
   /\ fire empty_cart ClickConfirm confirming = None)
  /\ (delete_disabled (view (world deleting_a)) order_a = true
      /\ delete_disabled (view (world deleting_a)) order_b = false
      /\ in_flight is_delete deleting_a = 1%nat).
Proof.
  split.
  2:{ assert (Hreach : reachable empty_cart (mkStore (Some ana) [coke; tapa])
                                 loaded).
      { exists [Settle 0 (ResolvedOrders (Some [order_a; order_b]));
                Settle 0 (ResolvedTop [])].
        reflexivity. }
      destruct (one_save_in_flight empty_cart _ loaded Hreach)
        as (_ & _ & _ & Hclick).
      destruct (Hclick 0%nat order_a deleting_a eq_refl eq_refl)
        as (Hown & Hothers & Hcount).
      split; [exact Hown|]. split; [|exact Hcount].
      apply Hothers. discriminate. }
  split; [reflexivity|].
  assert (Hreach : reachable empty_cart (mkStore (Some ana) [coke; tapa])
                             confirming).
  { exists [Settle 0 (ResolvedOrders (Some [order_a; order_b]));
            Settle 0 (ResolvedTop []);
            ClickConfirm].
    reflexivity. }
  destruct (one_save_in_flight empty_cart _ confirming Hreach)
    as (Hmax & Hdisabled & _).
  split; [exact Hmax|].
  apply Hdisabled. unfold in_flight. simpl. lia.
Defined.

(* ================================================================= *)
(** ** Part 6: further properties of the handlers and of the page *)

(** **** X1 *)

(** X1: when [deleteOrder] rejects, [handleDeleteOrder] reloads nothing:
    the delete is the only request it sends, the history and the top items
    on the page are what they were (the order is still listed),
    [isLoading] is untouched, and the error is "Error al eliminar el
    pedido". *)
Theorem delete_failure_skips_reload :
  forall (clearOrder : Store -> Store) (B : Type)
         (serve : forall r : Request, B -> (Err + Reply r) * B)
         (orderId : string) (err : Err) (b : B) (w : World),
    fst (serve (DeleteOrder orderId) b) = inl err ->
    let result := exec clearOrder serve (handleDeleteOrder orderId) b w in
    let w' := snd result in
    snd (fst result) = snd (serve (DeleteOrder orderId) b)
    /\ log w' = log w ++ delete_rejected_events orderId err
    /\ requests_of (delete_rejected_events orderId err)
       = [DeleteOrder orderId]
    /\ allOrders (view w') = allOrders (view w)
    /\ topTapas (view w') = topTapas (view w)
    /\ isLoading (view w') = isLoading (view w)
    /\ error (view w') = Some "Error al eliminar el pedido".
Proof.
  intros clearOrder B serve orderId err b w Hdel result w'.
  subst w' result.
  rewrite (exec_delete_rejected clearOrder B serve orderId err b w Hdel).
  cbn [fst snd]. repeat split; try reflexivity. apply log_perform.
Qed.

Lemma delete_failure_skips_reload_witness :
  let w' := snd (exec empty_cart backend_down (handleDeleteOrder "A") tt
                      ready_world) in
  allOrders (view w') = [order_a; order_b]
  /\ error (view w') = Some "Error al eliminar el pedido".
Proof.
  destruct (delete_failure_skips_reload empty_cart unit backend_down "A"
              "network down" tt ready_world eq_refl)
    as (_ & _ & _ & Horders & _ & _ & Herror).
  cbv zeta. split; assumption.
Defined.

(** **** X2 *)

(** X2: when [deleteOrder] resolves, [handleDeleteOrder] sends, in this
    order, the delete, [getAllOrders] and [getTopTapas], the last one also
    when the reload of the orders failed.  The history becomes what
    [getAllOrders] resolved with and is kept when it rejected; likewise for
    the top items.  A failed reload shows the load error, never the delete
    error; with a successful reload the error is what it was. *)
Theorem delete_success_reloads :
  forall (clearOrder : Store -> Store) (B : Type)
         (serve : forall r : Request, B -> (Err + Reply r) * B)
         (orderId : string) (b : B) (w : World),
    let del := serve (DeleteOrder orderId) b in
    let orders := serve GetAllOrders (snd del) in
    let top := serve GetTopTapas (snd orders) in
    let w' := snd (exec clearOrder serve (handleDeleteOrder orderId) b w) in
    fst del = inr tt ->
    log w' = log w ++ deleted_events orderId (fst orders) (fst top)
    /\ requests_of (deleted_events orderId (fst orders) (fst top))
       = [DeleteOrder orderId; GetAllOrders; GetTopTapas]
    /\ allOrders (view w')
       = match fst orders with
         | inr reply => or_empty reply
         | inl _ => allOrders (view w)
         end
    /\ topTapas (view w')
       = match fst top with
         | inr reply => reply
         | inl _ => topTapas (view w)
         end
    /\ error (view w')
       = match fst orders with
         | inr _ => error (view w)
         | inl _ => Some "Error al cargar los pedidos"
         end.
Proof.
  intros clearOrder B serve orderId b w del orders top w' Hdel.
  subst w' top orders del.
  rewrite (exec_delete_done clearOrder B serve orderId b w Hdel).
  cbn [snd]. split; [apply log_perform|].
  unfold deleted_events.
  destruct (fst (serve GetAllOrders _)) as [e1|os];
    destruct (fst (serve GetTopTapas _)) as [e2|ts];
    repeat split; reflexivity.
Qed.

Lemma delete_success_reloads_witness :
  let w' := snd (exec empty_cart backend_up (handleDeleteOrder "A")
                      [order_a; order_b] ready_world) in
  allOrders (view w') = [order_b] /\ error (view w') = None.
Proof.
  destruct (delete_success_reloads empty_cart (list Order) backend_up "A"
              [order_a; order_b] ready_world eq_refl)
    as (_ & _ & Horders & _ & Herror).
  cbv zeta. split; assumption.
Defined.

(** **** X3 *)

(** X3: the error left by [handleConfirmOrder] depends on how the calls
    went and never on the error that was there before: the handler starts
    with [setError(null)].  It is the save message when no customer is
    selected or [saveOrder] rejected, the load message when the save went
    through and the reload of the orders failed, and [null] otherwise. *)
Theorem confirm_error_is_fresh :
  forall (clearOrder : Store -> Store) (B : Type)
         (serve : forall r : Request, B -> (Err + Reply r) * B)
         (cart : list Item) (b : B) (w : World),
    error (view (snd (exec clearOrder serve
                           (handleConfirmOrder None cart) b w)))
    = Some save_failed_message
    /\ forall c : Customer,
         let save := serve (SaveOrder (customer_id c) cart) b in
         let orders := serve GetAllOrders (snd save) in
         error (view (snd (exec clearOrder serve
                                (handleConfirmOrder (Some c) cart) b w)))
         = match fst save, fst orders with
           | inl _, _ => Some save_failed_message
           | inr _, inl _ => Some "Error al cargar los pedidos"
           | inr _, inr _ => None
           end.
Proof.
  intros clearOrder B serve cart b w. split.
  - rewrite exec_confirm_no_customer. reflexivity.
  - intros c save orders. subst orders save.
    destruct (fst (serve (SaveOrder (customer_id c) cart) b))
      as [e|[]] eqn:Hsave.
    + rewrite (exec_confirm_rejected _ _ _ _ _ _ _ _ Hsave). reflexivity.
    + rewrite (exec_confirm_saved _ _ _ _ _ _ _ Hsave). cbn [snd].
      unfold saved_events.
      destruct (fst (serve GetAllOrders _)) as [e1|os];
        destruct (fst (serve GetTopTapas _)) as [e2|ts]; reflexivity.
Qed.

(** **** X4 *)

(** X4: the loads never clear the error.  After [loadOrders] the error is
    the load message when [getAllOrders] rejected and is what it was when
    it resolved; [loadTopTapas] leaves the error as it was, whatever
    [getTopTapas] does.  So a message stays on the page after a later
    successful reload. *)
Theorem loads_keep_error :
  forall (clearOrder : Store -> Store) (B : Type)
         (serve : forall r : Request, B -> (Err + Reply r) * B)
         (b : B) (w : World),
    error (view (snd (exec clearOrder serve loadOrders b w)))
    = match fst (serve GetAllOrders b) with
      | inl _ => Some "Error al cargar los pedidos"
      | inr _ => error (view w)
      end
    /\ error (view (snd (exec clearOrder serve loadTopTapas b w)))
       = error (view w)
    /\ isLoading (view (snd (exec clearOrder serve loadTopTapas b w)))
       = isLoading (view w).
Proof.
  intros clearOrder B serve b w.
  rewrite exec_loadOrders, exec_loadTopTapas. cbn [snd].
  destruct (fst (serve GetAllOrders b)) as [e1|os];
    destruct (fst (serve GetTopTapas b)) as [e2|ts];
    repeat split; reflexivity.
Qed.

(** **** X5 *)

(** X5: an order made of tapas only costs nothing: when every item has
    the category "tapas", [calculateTotal] is [0], whatever the prices and
    quantities are. *)
Theorem tapas_only_order_is_free :
  forall (num : Type) (A : Arith num) (items : list (OrderItem num)),
    forallb (fun item => String.eqb (category item) "tapas") items = true ->
    calculateTotal items = zero.
Proof.
  intros num A items Hall. unfold calculateTotal.
  rewrite calculateTotal_from.
  replace (filter chargeable items) with (@nil (OrderItem num));
    [reflexivity|].
  induction items as [|item rest IH]; [reflexivity|].
  simpl in Hall. apply andb_prop in Hall. destruct Hall as [Hitem Hrest].
  simpl. unfold chargeable at 1. rewrite Hitem. simpl. apply IH, Hrest.
Qed.

Lemma tapas_only_order_is_free_witness :
  calculateTotal [tapa; mkItem "Tapa2" "tapas" 3%float 2%float] = 0%float.
Proof.
  apply (tapas_only_order_is_free float js_number). reflexivity.
Defined.

(** **** X6 *)

Lemma amount_args_render_row (v : View) (o : Order) :
  amount_args (render_row v o)
  = map line_amount (filter chargeable (items o)).
Proof.
  unfold amount_args, render_row.
  cbn [row_lines]. induction (items o) as [|item rest IH]; [reflexivity|].
  cbn [map flat_map filter]. rewrite IH.
  unfold render_line. cbn [line_amount_arg].
  destruct (chargeable item); reflexivity.
Qed.

(** X6: on every row of the history, the number that is formatted after
    "Total a pagar:" (the argument of [toFixed(2)], line 160) is the sum,
    from [0] and top to bottom, of the numbers that are formatted on the
    lines of that row (the arguments of [toFixed(2)], line 151); there is
    one line per item, and a line has no amount exactly when its item is a
    tapa.  This is about the numbers before formatting: the two-decimal
    texts, each rounded on its own, need not add up. *)
Theorem row_total_adds_the_lines :
  forall (v : View) (o : Order),
    row_total_arg (render_row v o)
    = fold_left PrimFloat.add (amount_args (render_row v o)) 0%float
    /\ Forall2 (fun item line =>
                  line_name line = name item
                  /\ (line_amount_arg line = None
                      <-> category item = "tapas"))
               (items o) (row_lines (render_row v o)).
Proof.
  intros v o. split.
  - rewrite amount_args_render_row. unfold render_row. cbn [row_total_arg].
    exact (@calculateTotal_from float js_number (items o) 0%float).
  - unfold render_row. simpl.
    induction (items o) as [|item rest IH]; constructor; [|exact IH].
    split; [reflexivity|].
    unfold render_line, chargeable. simpl.
    destruct (String.eqb_spec (category item) "tapas") as [Heq|Hne]; simpl.
    + split; [intros _; exact Heq|reflexivity].
    + split; [discriminate|intro Heq; contradiction].
Qed.

Lemma row_total_adds_the_lines_witness :
  row_total_arg (render_row (view ready_world) order_a) = 4%float
  /\ amount_args (render_row (view ready_world) order_a) = [4%float].
Proof.
  split; [|reflexivity].
  rewrite (proj1 (row_total_adds_the_lines (view ready_world) order_a)).
  reflexivity.
Defined.

(** **** X7 *)

(** X7: the error message is part of the cart block.  After an initial
    load in which [getAllOrders] rejected, the error "Error al cargar los
    pedidos" is set, but the page shows it only when a customer is
    selected and the cart is not empty; otherwise the page shows "No hay
    pedidos registrados" and no error at all. *)
Theorem load_error_needs_a_cart :
  forall (clearOrder : Store -> Store) (st : Store) (orders_first : bool)
         (err : Err) (rt : Err + list (string * float)),
  exists s : System,
    fire_all clearOrder (initial_load orders_first (inl err) rt)
             (mounted clearOrder st) = Some s
    /\ error (view (world s)) = Some "Error al cargar los pedidos"
    /\ render (world s)
       = Page (NoOrders "No hay pedidos registrados")
              (match customer st, orderItems st with
               | Some _, _ :: _ =>
                   Some (mkCartView (Some "Error al cargar los pedidos")
                           (ConfirmButton false "Finalizar Pedido"))
               | _, _ => None
               end).
Proof.
  intros clearOrder [c cart] orders_first err rt.
  destruct orders_first, rt as [e2|top];
    (eexists; split; [reflexivity|]); (split; [reflexivity|]);
    destruct c as [c|], cart as [|item cart]; reflexivity.
Qed.

(** **** X8 *)

(** X8: the clicks of the event loop are those the screen allows.  A click
    on the confirm button starts [handleConfirmOrder] exactly when the
    screen has that button and it is not disabled; a click on the delete
    button of the [j]-th order starts [handleDeleteOrder] exactly when the
    screen has that row and its button is not disabled.  In particular no
    click does anything while the loading screen is shown. *)
Theorem clicks_follow_the_screen :
  forall (clearOrder : Store -> Store) (s : System) (j : nat),
    happens (fire clearOrder ClickConfirm s)
    = clickable (confirm_button (render (world s)))
    /\ happens (fire clearOrder (ClickDelete j) s)
       = clickable (delete_button (render (world s)) j)
    /\ (isLoading (view (world s)) = true ->
        fire clearOrder ClickConfirm s = None
        /\ fire clearOrder (ClickDelete j) s = None).
Proof.
  intros clearOrder [w pl] j. simpl. split; [|split].
  - unfold confirm_clickable, confirm_rendered, confirm_disabled, render,
      render_cart.
    destruct (isLoading (view w)); [reflexivity|]. simpl.
    destruct (customer (store w)) as [c|]; [|reflexivity].
    destruct (orderItems (store w)) as [|item cart]; [reflexivity|]. simpl.
    destruct (savedSuccessfully (view w)); [reflexivity|]. simpl.
    destruct (isSaving (view w)); reflexivity.
  - unfold render, render_history.
    destruct (isLoading (view w)); [reflexivity|].
    destruct (allOrders (view w)) as [|o orders] eqn:Hall.
    + destruct j; reflexivity.
    + pose proof (nth_error_map (render_row (view w)) j (o :: orders))
        as Hrow.
      simpl in Hrow |- *. rewrite Hrow.
      destruct (nth_error (o :: orders) j) as [o'|]; [|reflexivity].
      simpl. destruct (delete_disabled (view w) o'); reflexivity.
  - intro Hloading. unfold confirm_clickable, confirm_rendered.
    rewrite Hloading. split; reflexivity.
Qed.

Lemma clicks_follow_the_screen_witness :
  fire empty_cart ClickConfirm (mounted empty_cart (mkStore (Some ana) [coke]))
  = None
  /\ fire empty_cart (ClickDelete 0)
          (mounted empty_cart (mkStore (Some ana) [coke])) = None.
Proof.
  exact (proj2 (proj2 (clicks_follow_the_screen empty_cart
                         (mounted empty_cart (mkStore (Some ana) [coke]))
                         0%nat))
               eq_refl).
Defined.

(** **** X9 *)

(** X9: the success message "Pedido guardado correctamente" is part of
    the cart block too.  After a successful save the handler has called
    [clearOrder()], and the page shows the message only if the store that
    [clearOrder] leaves still has a customer and at least one item;
    the confirm button is not shown in either case. *)
Theorem saved_message_needs_a_cart :
  forall (clearOrder : Store -> Store) (B : Type)
         (serve : forall r : Request, B -> (Err + Reply r) * B)
         (c : Customer) (cart : list Item) (b : B) (w : World),
    fst (serve (SaveOrder (customer_id c) cart) b) = inr tt ->
    let w' :=
      snd (exec clearOrder serve (handleConfirmOrder (Some c) cart) b w) in
    saved_banner (render w')
    = match customer (clearOrder (store w)),
            orderItems (clearOrder (store w)) with
      | Some _, _ :: _ => Some "Pedido guardado correctamente"
      | _, _ => None
      end
    /\ confirm_button (render w') = None.
Proof.
  intros clearOrder B serve c cart b w Hsave w'. subst w'.
  rewrite (exec_confirm_saved clearOrder B serve c cart b w Hsave).
  cbn [snd]. unfold saved_events.
  destruct (fst (serve GetAllOrders _)) as [e1|os];
    destruct (fst (serve GetTopTapas _)) as [e2|ts];
    unfold render, render_cart; simpl;
    destruct (customer (clearOrder (store w))) as [c'|];
    try (split; reflexivity);
    destruct (orderItems (clearOrder (store w))) as [|item rest];
    split; reflexivity.
Qed.

Lemma saved_message_needs_a_cart_witness :
  let w' := snd (exec empty_cart backend_up
                      (handleConfirmOrder (Some ana) [coke; tapa])
                      [order_a] ready_world) in
  savedSuccessfully (view w') = true
  /\ saved_banner (render w') = None.
Proof.
  split; [reflexivity|].
  exact (proj1 (saved_message_needs_a_cart empty_cart (list Order) backend_up
                  ana [coke; tapa] [order_a] ready_world eq_refl)).
Defined.

(* ----------------------------------------------------------------- *)
(** *** One navigation at most: the invariant *)

Lemma calm_loadOrders : calm loadOrders.
Proof.
  simpl. repeat split. intros [e|[l|]]; simpl; repeat split.
Qed.

Lemma calm_loadTopTapas : calm loadTopTapas.
Proof.
  simpl. intros [e|top]; simpl; repeat split.
Qed.

Lemma calm_handleDeleteOrder (orderId : string) :
  calm (handleDeleteOrder orderId).
Proof.
  simpl. repeat split. intros [e|[]]; simpl; repeat split.
  intros [e|[l|]]; simpl; repeat split;
    intros [e'|top]; simpl; repeat split.
Qed.

Lemma confirms_handleConfirmOrder (held : bool) (c : option Customer)
    (cart : list Item) :
  confirms held false false (handleConfirmOrder c cart).
Proof.
  destruct c as [c|]; simpl; [|reflexivity].
  repeat split. intros [e|[]]; simpl; repeat split.
  intros [e|[l|]]; simpl; repeat split;
    intros [e'|top]; simpl; repeat split.
Qed.

(** Taking one entry out of a pool whose entries all satisfy [Q]. *)
Lemma pick_common {Q : InFlight -> Prop} (qs p1 p2 : list InFlight)
    (g : InFlight) :
  Forall Q qs -> Permutation (p1 ++ g :: p2) qs ->
  Q g /\ Forall Q (p1 ++ p2).
Proof.
  intros Hqs HP.
  assert (Hall : Forall Q (g :: p1 ++ p2)).
  { eapply Permutation_Forall; [|exact Hqs].
    symmetry. transitivity (p1 ++ g :: p2); [|exact HP].
    apply Permutation_middle. }
  inversion Hall; subst. split; assumption.
Qed.

(** Taking one entry out of a pool with one distinguished entry [f]: it
    is [f] itself, or one of the others. *)
Lemma pick_special {Q : InFlight -> Prop} (qs p1 p2 : list InFlight)
    (f g : InFlight) :
  Forall Q qs -> Permutation (p1 ++ g :: p2) (f :: qs) ->
  (g = f /\ Permutation (p1 ++ p2) qs)
  \/ (Q g /\ exists qs', Forall Q qs' /\ Permutation (p1 ++ p2) (f :: qs')).
Proof.
  intros Hqs HP.
  assert (HP' : Permutation (g :: p1 ++ p2) (f :: qs)).
  { transitivity (p1 ++ g :: p2); [apply Permutation_middle|exact HP]. }
  assert (Hin : In g (f :: qs))
    by (apply (Permutation_in g HP'); left; reflexivity).
  destruct Hin as [<-|Hin].
  - left. split; [reflexivity|].
    apply Permutation_cons_inv in HP'. exact HP'.
  - right. destruct (in_split g qs Hin) as (q1 & q2 & ->).
    assert (Hqs' : Forall Q (g :: q1 ++ q2)).
    { eapply Permutation_Forall; [|exact Hqs].
      symmetry. apply Permutation_middle. }
    inversion Hqs' as [|? ? Hg Hrest]; subst.
    split; [exact Hg|]. exists (q1 ++ q2). split; [exact Hrest|].
    apply (Permutation_cons_inv (a := g)).
    transitivity (f :: q1 ++ g :: q2); [exact HP'|].
    transitivity (f :: g :: q1 ++ q2); [|apply perm_swap].
    apply perm_skip. symmetry. apply Permutation_middle.
Qed.

Section OneShot.

Variable clearOrder : Store -> Store.

Lemma run_sync_calm (t : Async unit) :
  calm t ->
  forall w : World,
    isSaving (view (fst (run_sync clearOrder t w))) = isSaving (view w)
    /\ savedSuccessfully (view (fst (run_sync clearOrder t w)))
       = savedSuccessfully (view w)
    /\ timers (fst (run_sync clearOrder t w)) = timers w
    /\ match snd (run_sync clearOrder t w) with
       | Finished _ => True
       | Suspended r k => forall res, calm (k res)
       end.
Proof.
  induction t as [x|e|e k IH|r k IH]; simpl; intros Hc w.
  - repeat split.
  - repeat split.
  - destruct Hc as [He Hk].
    destruct (IH Hk (apply_effect clearOrder e w))
      as (Hsaving & Hsaved & Htimers & Hout).
    rewrite Hsaving, Hsaved, Htimers.
    destruct e; try contradiction; repeat split; exact Hout.
  - repeat split. exact Hc.
Qed.

Lemma run_sync_confirms (t : Async unit) :
  forall (fired : bool) (w : World),
    (if fired
     then savedSuccessfully (view w) = true
          /\ timers w = [(Navigate "/", 2000%Z)]
     else timers w = []) ->
    confirms (isSaving (view w)) (savedSuccessfully (view w)) fired t ->
    (savedSuccessfully (view w) = true ->
     savedSuccessfully (view (fst (run_sync clearOrder t w))) = true)
    /\ match run_sync clearOrder t w with
       | (w', Finished _) => isSaving (view w') = false /\ timer_state w'
       | (w', Suspended r k) =>
           isSaving (view w') = true
           /\ timers w' = []
           /\ forall res,
                confirms true (savedSuccessfully (view w')) false (k res)
       end.
Proof.
  induction t as [x|e|e k IH|r k IH]; simpl; intros fired w Htimers Hc.
  - split; [auto|]. split; [exact Hc|].
    destruct fired; [right|left]; exact Htimers.
  - split; [auto|]. split; [exact Hc|].
    destruct fired; [right|left]; exact Htimers.
  - destruct e;
      try (match goal with
           | |- context [run_sync clearOrder k (apply_effect clearOrder ?e0 w)] =>
               destruct (IH fired (apply_effect clearOrder e0 w) Htimers Hc)
                 as [Hmono Hout];
               split; [exact Hmono|exact Hout]
           end).
    + (* setSavedSuccessfully *)
      destruct Hc as [-> Hc].
      assert (Htimers' :
                if fired
                then savedSuccessfully
                       (view (apply_effect clearOrder
                                (SetSavedSuccessfully true) w)) = true
                     /\ timers (apply_effect clearOrder
                                  (SetSavedSuccessfully true) w)
                        = [(Navigate "/", 2000%Z)]
                else timers (apply_effect clearOrder
                               (SetSavedSuccessfully true) w) = []).
      { destruct fired; simpl; [split; [reflexivity|apply Htimers]
                               |exact Htimers]. }
      destruct (IH fired _ Htimers' Hc) as [Hmono Hout].
      split; [|exact Hout]. intros _. apply Hmono. reflexivity.
    + (* setTimeout *)
      destruct Hc as [(Hsaved & -> & -> & ->) Hc].
      assert (Htimers' :
                savedSuccessfully
                  (view (apply_effect clearOrder
                           (SetTimeout (Navigate "/") 2000) w)) = true
                /\ timers (apply_effect clearOrder
                             (SetTimeout (Navigate "/") 2000) w)
                   = [(Navigate "/", 2000%Z)]).
      { simpl. rewrite Htimers. split; [exact Hsaved|reflexivity]. }
      destruct (IH true _ Htimers' Hc) as [Hmono Hout].
      split; [exact Hmono|exact Hout].
  - split; [auto|]. destruct Hc as (Hheld & -> & Hk).
    split; [exact Hheld|]. split; [exact Htimers|exact Hk].
Qed.

End OneShot.

Section OneShotLoop.

Variable clearOrder : Store -> Store.

Lemma spawn_calm (t : Async unit) (w : World) (pl qs : list InFlight) :
  calm t ->
  Forall calm_entry qs ->
  (Permutation pl qs /\ timer_state w)
  \/ (isSaving (view w) = true
      /\ timers w = []
      /\ exists f,
           (forall res,
               confirms true (savedSuccessfully (view w)) false
                        (resume f res))
           /\ Permutation pl (f :: qs)) ->
  one_shot (spawn clearOrder t (mkSystem w pl))
  /\ savedSuccessfully (view (world (spawn clearOrder t (mkSystem w pl))))
     = savedSuccessfully (view w).
Proof.
  intros Hc Hqs Hpool. unfold spawn. simpl.
  destruct (run_sync_calm clearOrder t Hc w)
    as (Hsaving & Hsaved & Htimers & Hout).
  destruct (run_sync clearOrder t w) as [w' [res|r k]]; simpl in *.
  - split; [|exact Hsaved]. exists qs. split; [exact Hqs|]. simpl.
    unfold timer_state. rewrite Hsaving, Hsaved, Htimers. exact Hpool.
  - split; [|exact Hsaved].
    exists (qs ++ [mkInFlight r k]). split.
    + apply Forall_app. split; [exact Hqs|].
      constructor; [exact Hout|constructor].
    + simpl. unfold timer_state. rewrite Hsaving, Hsaved, Htimers.
      destruct Hpool as [[HP Hts]|(Hbusy & Hnone & f & Hf & HP)].
      * left. split; [apply Permutation_app_tail, HP|exact Hts].
      * right. split; [exact Hbusy|]. split; [exact Hnone|].
        exists f. split; [exact Hf|].
        apply (Permutation_app_tail [mkInFlight r k]) in HP. exact HP.
Qed.

Lemma spawn_confirms (t : Async unit) (w : World) (pl qs : list InFlight) :
  confirms (isSaving (view w)) (savedSuccessfully (view w)) false t ->
  timers w = [] ->
  Forall calm_entry qs ->
  Permutation pl qs ->
  one_shot (spawn clearOrder t (mkSystem w pl))
  /\ (savedSuccessfully (view w) = true ->
      savedSuccessfully (view (world (spawn clearOrder t (mkSystem w pl))))
      = true).
Proof.
  intros Hc Hnone Hqs HP. unfold spawn. simpl.
  destruct (run_sync_confirms clearOrder t false w Hnone Hc)
    as [Hmono Hrun].
  destruct (run_sync clearOrder t w) as [w' [res|r k]]; simpl in *.
  - split; [|exact Hmono]. destruct Hrun as [_ Hts].
    exists qs. split; [exact Hqs|]. left. split; [exact HP|exact Hts].
  - split; [|exact Hmono]. destruct Hrun as (Hbusy & Hnone' & Hk).
    exists qs. split; [exact Hqs|]. right.
    split; [exact Hbusy|]. split; [exact Hnone'|].
    exists (mkInFlight r k). split; [exact Hk|].
    transitivity (mkInFlight r k :: pl).
    + symmetry. apply Permutation_cons_append.
    + apply perm_skip, HP.
Qed.

Lemma one_shot_mounted (st : Store) : one_shot (mounted clearOrder st).
Proof.
  unfold mounted.
  destruct (spawn_calm loadOrders (mkWorld initial_view st [] []) [] []
              calm_loadOrders (Forall_nil _)
              (or_introl (conj (perm_nil _) (or_introl eq_refl))))
    as [(qs & Hqs & Hpool) _].
  destruct (spawn clearOrder loadOrders _) as [w pl].
  apply (spawn_calm loadTopTapas w pl qs calm_loadTopTapas Hqs Hpool).
Qed.

Lemma one_shot_fire (a : Action) (s s' : System) :
  one_shot s -> fire clearOrder a s = Some s' ->
  one_shot s'
  /\ (savedSuccessfully (view (world s)) = true ->
      savedSuccessfully (view (world s')) = true).
Proof.
  intros (qs & Hqs & Hpool) Hfire.
  destruct s as [w pl]. destruct a as [i how| |j]; simpl in *.
  - destruct (nth_error pl i) as [g|] eqn:Hnth; [|discriminate].
    destruct (settle (request g) how) as [res|]; [|discriminate].
    injection Hfire as <-.
    destruct (remove_nth_split pl i g Hnth) as (p1 & p2 & -> & ->).
    destruct Hpool as [[HP Hts]|(Hbusy & Hnone & f & Hf & HP)].
    + destruct (pick_common qs p1 p2 g Hqs HP) as [Hg Hrest].
      destruct (spawn_calm (resume g res) w (p1 ++ p2) (p1 ++ p2)
                  (Hg res) Hrest
                  (or_introl (conj (Permutation_refl _) Hts)))
        as [Hinv Hsaved].
      split; [exact Hinv|]. intros Hs. rewrite Hsaved. exact Hs.
    + destruct (pick_special qs p1 p2 f g Hqs HP)
        as [[-> HP']|(Hg & qs' & Hqs' & HP')].
      * apply (spawn_confirms (resume f res) w (p1 ++ p2) qs);
          [rewrite Hbusy; apply Hf|exact Hnone|exact Hqs|exact HP'].
      * destruct (spawn_calm (resume g res) w (p1 ++ p2) qs'
                    (Hg res) Hqs'
                    (or_intror
                       (conj Hbusy
                          (conj Hnone
                             (ex_intro _ f (conj Hf HP'))))))
          as [Hinv Hsaved].
        split; [exact Hinv|]. intros Hs. rewrite Hsaved. exact Hs.
  - destruct (confirm_clickable w) eqn:Hclick; [|discriminate].
    injection Hfire as <-.
    unfold confirm_clickable, confirm_rendered, confirm_disabled in Hclick.
    apply andb_prop in Hclick. destruct Hclick as [Hshown Hidle].
    apply negb_true_iff in Hidle.
    apply andb_prop in Hshown. destruct Hshown as [_ Hfresh].
    apply negb_true_iff in Hfresh.
    destruct Hpool as [[HP Hts]|(Hbusy & _)]; [|congruence].
    destruct Hts as [Hnone|[Hsaved _]]; [|congruence].
    apply (spawn_confirms _ w pl qs);
      [rewrite Hfresh; apply confirms_handleConfirmOrder
      |exact Hnone|exact Hqs|exact HP].
  - destruct (isLoading (view w)); [discriminate|].
    destruct (nth_error (allOrders (view w)) j) as [o|]; [|discriminate].
    destruct (delete_disabled (view w) o); [discriminate|].
    injection Hfire as <-.
    destruct (spawn_calm (handleDeleteOrder (order_id o)) w pl qs
                (calm_handleDeleteOrder _) Hqs Hpool) as [Hinv Hsaved].
    split; [exact Hinv|]. intros Hs. rewrite Hsaved. exact Hs.
Qed.

Lemma one_shot_fire_all (acts : list Action) :
  forall s s' : System,
    one_shot s -> fire_all clearOrder acts s = Some s' -> one_shot s'.
Proof.
  induction acts as [|a acts IH]; simpl; intros s s' Hinv Hrun.
  - injection Hrun as <-. exact Hinv.
  - destruct (fire clearOrder a s) as [s1|] eqn:Hfire; [|discriminate].
    apply (IH s1 s'); [|exact Hrun].
    apply (one_shot_fire a s s1 Hinv Hfire).
Qed.

Lemma one_shot_reachable (st : Store) (s : System) :
  reachable clearOrder st s -> one_shot s.
Proof.
  intros [acts Hrun].
  apply (one_shot_fire_all acts _ s (one_shot_mounted st) Hrun).
Qed.

(** Once [savedSuccessfully] is true it stays true, and no later action
    is a click on the confirm button. *)
Lemma saved_stays (acts : list Action) :
  forall s s' : System,
    one_shot s ->
    savedSuccessfully (view (world s)) = true ->
    fire_all clearOrder acts s = Some s' ->
    savedSuccessfully (view (world s')) = true
    /\ ~ In ClickConfirm acts.
Proof.
  induction acts as [|a acts IH]; simpl; intros s s' Hinv Hsaved Hrun.
  - injection Hrun as <-. split; [exact Hsaved|intros []].
  - destruct (fire clearOrder a s) as [s1|] eqn:Hfire; [|discriminate].
    destruct (one_shot_fire a s s1 Hinv Hfire) as [Hinv1 Hmono].
    destruct (IH s1 s' Hinv1 (Hmono Hsaved) Hrun) as [Hsaved' Hnone].
    split; [exact Hsaved'|].
    intros [->|Hin]; [|exact (Hnone Hin)].
    simpl in Hfire.
    unfold confirm_clickable, confirm_rendered in Hfire.
    rewrite Hsaved, !andb_false_r in Hfire. discriminate.
Qed.

End OneShotLoop.

(** **** X10 *)

(** X10: the page schedules one navigation at most.  In every reachable
    state either no timer was set, or [savedSuccessfully] is true and the
    only timer ever set is the navigation to "/" after 2000 ms: clicks and
    replies, however interleaved, never lead to a second [setTimeout] nor
    to one without a successful save. *)
Theorem single_navigation :
  forall (clearOrder : Store -> Store) (st : Store) (s : System),
    reachable clearOrder st s ->
    timers (world s) = []
    \/ (savedSuccessfully (view (world s)) = true
        /\ timers (world s) = [(Navigate "/", 2000%Z)]).
Proof.
  intros clearOrder st s Hreach.
  destruct (one_shot_reachable clearOrder st s Hreach)
    as (qs & _ & [[_ Hts]|(_ & Hnone & _)]).
  - exact Hts.
  - left. exact Hnone.
Qed.

Lemma single_navigation_witness :
  timers (world confirmed) = [(Navigate "/", 2000%Z)]
  /\ (timers (world confirmed) = []
      \/ (savedSuccessfully (view (world confirmed)) = true
          /\ timers (world confirmed) = [(Navigate "/", 2000%Z)])).
Proof.
  split; [reflexivity|].
  apply (single_navigation empty_cart (mkStore (Some ana) [coke; tapa])).
  exists [Settle 0 (ResolvedOrders (Some [order_a; order_b]));
          Settle 0 (ResolvedTop []);
          ClickConfirm;
          Settle 0 ResolvedVoid;
          Settle 0 (ResolvedOrders (Some [order_a; order_b]));
          Settle 0 (ResolvedTop [])].
  reflexivity.
Defined.

(** **** X11 *)

(** X11: a successful save is final for the page.  From a reachable state
    in which [savedSuccessfully] is true, whatever happens next,
    [savedSuccessfully] stays true, no click on the confirm button is
    among the actions that happen, and none is possible afterwards: the
    page never sends a second [saveOrder] after a successful one. *)
Theorem saved_is_final :
  forall (clearOrder : Store -> Store) (st : Store) (s s' : System)
         (acts : list Action),
    reachable clearOrder st s ->
    savedSuccessfully (view (world s)) = true ->
    fire_all clearOrder acts s = Some s' ->
    savedSuccessfully (view (world s')) = true
    /\ ~ In ClickConfirm acts
    /\ fire clearOrder ClickConfirm s' = None.
Proof.
  intros clearOrder st s s' acts Hreach Hsaved Hrun.
  destruct (saved_stays clearOrder acts s s'
              (one_shot_reachable clearOrder st s Hreach) Hsaved Hrun)
    as [Hsaved' Hnone].
  split; [exact Hsaved'|]. split; [exact Hnone|].
  simpl. unfold confirm_clickable, confirm_rendered.
  rewrite Hsaved', !andb_false_r. reflexivity.
Qed.

Lemma saved_is_final_witness :
  customer (store (world saved_and_reloaded)) = Some ana
  /\ savedSuccessfully (view (world saved_and_reloaded)) = true
  /\ fire keep_cart ClickConfirm saved_and_reloaded = None.
Proof.
  split; [reflexivity|].
  assert (Hreach : reachable keep_cart (mkStore (Some ana) [coke; tapa])
                             just_saved).
  { exists [Settle 0 (ResolvedOrders (Some [order_a]));
            Settle 0 (ResolvedTop []);
            ClickConfirm;
            Settle 0 ResolvedVoid].
    reflexivity. }
  destruct (saved_is_final keep_cart _ just_saved saved_and_reloaded
              [Settle 0 (ResolvedOrders (Some [order_a; order_b]));
               Settle 0 (Rejected "timeout")]
              Hreach eq_refl eq_refl)
    as (Hsaved & _ & Hclick).
  split; assumption.
Defined.

(* ----------------------------------------------------------------- *)
(** *** No request is sent again: the invariant *)

Lemma reloads_only_loadOrders : reloads_only loadOrders.
Proof.
  simpl. repeat split. intros [e|[l|]]; simpl; repeat split.
Qed.

Lemma reloads_only_loadTopTapas : reloads_only loadTopTapas.
Proof.
  simpl. repeat split. intros [e|top]; simpl; repeat split.
Qed.

Lemma sends_once_handleDeleteOrder (orderId : string) :
  sends_once (handleDeleteOrder orderId).
Proof.
  simpl. intros [e|[]]; simpl; repeat split.
  intros [e|[l|]]; simpl; repeat split;
    intros [e'|top]; simpl; repeat split.
Qed.

Lemma sends_once_handleConfirmOrder (c : option Customer)
    (cart : list Item) :
  sends_once (handleConfirmOrder c cart).
Proof.
  destruct c as [c|]; simpl; [|exact I].
  intros [e|[]]; simpl; repeat split.
  intros [e|[l|]]; simpl; repeat split;
    intros [e'|top]; simpl; repeat split.
Qed.

Lemma reloads_only_sends_once (t : Async unit) :
  reloads_only t -> sends_once t.
Proof.
  induction t as [x|e|e k IH|r k IH]; simpl; intro Hr.
  - exact I.
  - exact I.
  - apply IH, Hr.
  - apply Hr.
Qed.

Lemma reloads_only_first_events (t : Async unit) :
  reloads_only t ->
  Forall (fun r => is_save r = false /\ is_delete r = false)
         (requests_of (first_events t)).
Proof.
  induction t as [x|e|e k IH|r k IH]; simpl; intro Hr.
  - constructor.
  - constructor.
  - apply IH, Hr.
  - constructor; [split; apply Hr|constructor].
Qed.

Section NoRetry.

Variable clearOrder : Store -> Store.

Lemma log_run_sync (t : Async unit) :
  forall w : World,
    log (fst (run_sync clearOrder t w)) = log w ++ first_events t.
Proof.
  induction t as [x|e|e k IH|r k IH]; simpl; intro w.
  - symmetry. apply app_nil_r.
  - symmetry. apply app_nil_r.
  - rewrite IH. simpl. rewrite <- app_assoc. reflexivity.
  - reflexivity.
Qed.

Lemma run_sync_sends_once (t : Async unit) :
  sends_once t ->
  forall w : World,
    match snd (run_sync clearOrder t w) with
    | Finished _ => True
    | Suspended r k => forall res, reloads_only (k res)
    end.
Proof.
  induction t as [x|e|e k IH|r k IH]; simpl; intros Hs w.
  - exact I.
  - exact I.
  - apply IH, Hs.
  - exact Hs.
Qed.

Lemma spawn_reloading (t : Async unit) (w : World) (pl : list InFlight) :
  sends_once t ->
  reloading (mkSystem w pl) ->
  reloading (spawn clearOrder t (mkSystem w pl)).
Proof.
  intros Hs Hpool. unfold spawn, reloading in *. simpl in *.
  pose proof (run_sync_sends_once t Hs w) as Hout.
  destruct (run_sync clearOrder t w) as [w' [res|r k]]; simpl in *.
  - exact Hpool.
  - apply Forall_app. split; [exact Hpool|].
    constructor; [exact Hout|constructor].
Qed.

Lemma reloading_mounted (st : Store) : reloading (mounted clearOrder st).
Proof.
  unfold mounted.
  pose proof (spawn_reloading loadOrders (mkWorld initial_view st [] []) []
                (reloads_only_sends_once _ reloads_only_loadOrders)
                (Forall_nil _)) as Hfirst.
  destruct (spawn clearOrder loadOrders _) as [w pl].
  apply spawn_reloading;
    [apply reloads_only_sends_once, reloads_only_loadTopTapas|exact Hfirst].
Qed.

Lemma reloading_fire (a : Action) (s s' : System) :
  reloading s -> fire clearOrder a s = Some s' -> reloading s'.
Proof.
  intros Hpool Hfire.
  destruct s as [w pl]. destruct a as [i how| |j]; simpl in *.
  - destruct (nth_error pl i) as [g|] eqn:Hnth; [|discriminate].
    destruct (settle (request g) how) as [res|]; [|discriminate].
    injection Hfire as <-.
    destruct (remove_nth_split pl i g Hnth) as (p1 & p2 & -> & ->).
    unfold reloading in Hpool. simpl in Hpool.
    apply Forall_app in Hpool. destruct Hpool as [Hp1 Hrest].
    inversion Hrest as [|? ? Hg Hp2]; subst.
    apply spawn_reloading; [apply reloads_only_sends_once, Hg|].
    unfold reloading. simpl. apply Forall_app. split; assumption.
  - destruct (confirm_clickable w); [|discriminate].
    injection Hfire as <-.
    apply spawn_reloading; [apply sends_once_handleConfirmOrder|exact Hpool].
  - destruct (isLoading (view w)); [discriminate|].
    destruct (nth_error (allOrders (view w)) j) as [o|]; [|discriminate].
    destruct (delete_disabled (view w) o); [discriminate|].
    injection Hfire as <-.
    apply spawn_reloading; [apply sends_once_handleDeleteOrder|exact Hpool].
Qed.

Lemma reloading_reachable (st : Store) (s : System) :
  reachable clearOrder st s -> reloading s.
Proof.
  intros [acts Hrun].
  pose proof (reloading_mounted st) as Hinit.
  revert Hrun Hinit. generalize (mounted clearOrder st). revert s.
  induction acts as [|a acts IH]; simpl; intros s s0 Hrun Hinv.
  - injection Hrun as <-. exact Hinv.
  - destruct (fire clearOrder a s0) as [s1|] eqn:Hfire; [|discriminate].
    apply (IH s s1 Hrun). apply (reloading_fire a s0 s1 Hinv Hfire).
Qed.

End NoRetry.

Lemma never_again_weaken (t : Async unit) :
  forall sent sent' : Request -> bool,
    (forall r, sent r = true -> sent' r = true) ->
    never_again sent' t -> never_again sent t.
Proof.
  induction t as [x|e|e k IH|r k IH]; simpl; intros sent sent' Hsub Hn.
  - exact I.
  - exact I.
  - apply (IH sent sent' Hsub Hn).
  - destruct Hn as [Hr Hk]. split.
    + destruct (sent r) eqn:Hs; [|reflexivity].
      rewrite (Hsub r Hs) in Hr. discriminate.
    + intro res. apply (IH res _ (fun r' => sent' r' || same_kind r r')).
      * intros r' Hin. apply orb_true_iff in Hin. apply orb_true_iff.
        destruct Hin as [Hin|Hin]; [left; apply Hsub, Hin|right; exact Hin].
      * apply Hk.
Qed.

Lemma never_again_loadOrders : never_again (fun _ => false) loadOrders.
Proof.
  simpl. split; [reflexivity|]. intros [e|[l|]]; exact I.
Qed.

Lemma never_again_loadTopTapas : never_again (fun _ => false) loadTopTapas.
Proof.
  simpl. split; [reflexivity|]. intros [e|top]; exact I.
Qed.

Lemma never_again_handleDeleteOrder (orderId : string) :
  never_again (fun _ => false) (handleDeleteOrder orderId).
Proof.
  simpl. split; [reflexivity|]. intros [e|[]]; simpl; [exact I|].
  split; [reflexivity|].
  intros [e|[l|]]; simpl; (split; [reflexivity|]);
    intros [e'|top]; exact I.
Qed.

Lemma never_again_handleConfirmOrder (c : option Customer)
    (cart : list Item) :
  never_again (fun _ => false) (handleConfirmOrder c cart).
Proof.
  destruct c as [c|]; simpl; [|exact I].
  split; [reflexivity|]. intros [e|[]]; simpl; [exact I|].
  split; [reflexivity|].
  intros [e|[l|]]; simpl; (split; [reflexivity|]);
    intros [e'|top]; exact I.
Qed.

Lemma never_again_first_events (t : Async unit) :
  forall sent : Request -> bool,
    never_again sent t ->
    Forall (fun r => sent r = false) (requests_of (first_events t)).
Proof.
  induction t as [x|e|e k IH|r k IH]; simpl; intros sent Hn.
  - constructor.
  - constructor.
  - apply IH, Hn.
  - constructor; [apply Hn|constructor].
Qed.

Section NeverAgain.

Variable clearOrder : Store -> Store.

(** A handler that never sends a kind of request again sends, in a whole
    run, requests of pairwise distinct kinds. *)
Lemma exec_never_again (B : Type)
    (serve : forall r : Request, B -> (Err + Reply r) * B)
    (t : Async unit) :
  forall (sent : Request -> bool) (b : B) (w : World),
    never_again sent t ->
    exists evs : list Event,
      log (snd (exec clearOrder serve t b w)) = log w ++ evs
      /\ distinct_kinds (requests_of evs) = true
      /\ Forall (fun r => sent r = false) (requests_of evs).
Proof.
  induction t as [x|e|e k IH|r k IH]; simpl; intros sent b w Hn.
  - exists []. split; [symmetry; apply app_nil_r|]. split; constructor.
  - exists []. split; [symmetry; apply app_nil_r|]. split; constructor.
  - destruct (IH sent b (apply_effect clearOrder e w) Hn)
      as (evs & Hlog & Hdistinct & Hfresh).
    exists (Did e :: evs). split; [|split; assumption].
    rewrite Hlog. simpl. rewrite <- app_assoc. reflexivity.
  - destruct Hn as [Hr Hk]. destruct (serve r b) as [res b'].
    destruct (IH res _ b' (record_request r w) (Hk res))
      as (evs & Hlog & Hdistinct & Hfresh).
    exists (Requested r :: evs). split; [|split].
    + rewrite Hlog. simpl. rewrite <- app_assoc. reflexivity.
    + simpl. rewrite Hdistinct, andb_true_r. apply negb_true_iff.
      clear Hlog Hdistinct.
      induction Hfresh as [|r' rest Hr' _ IHrest]; [reflexivity|].
      simpl. apply orb_false_iff in Hr'. destruct Hr' as [_ Hr'].
      rewrite Hr'. exact IHrest.
    + simpl. constructor; [exact Hr|].
      clear Hlog Hdistinct.
      induction Hfresh as [|r' rest Hr' _ IHrest]; constructor.
      * apply orb_false_iff in Hr'. apply Hr'.
      * exact IHrest.
Qed.

Lemma calls_each_once_of (h : Async unit) :
  never_again (fun _ => false) h -> calls_each_once clearOrder h.
Proof.
  intros Hn B serve b w.
  destruct (exec_never_again B serve h _ b w Hn) as (evs & Hlog & Hd & _).
  exists evs. split; assumption.
Qed.

Lemma run_sync_never_again (t : Async unit) :
  forall (sent : Request -> bool) (w : World),
    never_again sent t ->
    match snd (run_sync clearOrder t w) with
    | Finished _ => True
    | Suspended r k => forall res, never_again (same_kind r) (k res)
    end.
Proof.
  induction t as [x|e|e k IH|r k IH]; simpl; intros sent w Hn.
  - exact I.
  - exact I.
  - apply (IH sent _ Hn).
  - intro res.
    apply (never_again_weaken (k res) _
             (fun r' => sent r' || same_kind r r')).
    + intros r' Hin. apply orb_true_iff. right. exact Hin.
    + apply Hn.
Qed.

Lemma spawn_answered_once (t : Async unit) (sent : Request -> bool)
    (w : World) (pl : list InFlight) :
  never_again sent t ->
  answered_once (mkSystem w pl) ->
  answered_once (spawn clearOrder t (mkSystem w pl)).
Proof.
  intros Hn Hpool. unfold spawn, answered_once in *. simpl in *.
  pose proof (run_sync_never_again t sent w Hn) as Hout.
  destruct (run_sync clearOrder t w) as [w' [res|r k]]; simpl in *.
  - exact Hpool.
  - apply Forall_app. split; [exact Hpool|].
    constructor; [exact Hout|constructor].
Qed.

Lemma answered_once_mounted (st : Store) :
  answered_once (mounted clearOrder st).
Proof.
  unfold mounted.
  pose proof (spawn_answered_once loadOrders _
                (mkWorld initial_view st [] []) []
                never_again_loadOrders (Forall_nil _)) as Hfirst.
  destruct (spawn clearOrder loadOrders _) as [w pl].
  apply (spawn_answered_once loadTopTapas _ w pl
           never_again_loadTopTapas Hfirst).
Qed.

Lemma answered_once_fire (a : Action) (s s' : System) :
  answered_once s -> fire clearOrder a s = Some s' -> answered_once s'.
Proof.
  intros Hpool Hfire.
  destruct s as [w pl]. destruct a as [i how| |j]; simpl in *.
  - destruct (nth_error pl i) as [g|] eqn:Hnth; [|discriminate].
    destruct (settle (request g) how) as [res|]; [|discriminate].
    injection Hfire as <-.
    destruct (remove_nth_split pl i g Hnth) as (p1 & p2 & -> & ->).
    unfold answered_once in Hpool. simpl in Hpool.
    apply Forall_app in Hpool. destruct Hpool as [Hp1 Hrest].
    inversion Hrest as [|? ? Hg Hp2]; subst.
    apply (spawn_answered_once _ (same_kind (request g))); [apply Hg|].
    unfold answered_once. simpl. apply Forall_app. split; assumption.
  - destruct (confirm_clickable w); [|discriminate].
    injection Hfire as <-.
    apply (spawn_answered_once _ (fun _ => false));
      [apply never_again_handleConfirmOrder|exact Hpool].
  - destruct (isLoading (view w)); [discriminate|].
    destruct (nth_error (allOrders (view w)) j) as [o|]; [|discriminate].
    destruct (delete_disabled (view w) o); [discriminate|].
    injection Hfire as <-.
    apply (spawn_answered_once _ (fun _ => false));
      [apply never_again_handleDeleteOrder|exact Hpool].
Qed.

Lemma answered_once_reachable (st : Store) (s : System) :
  reachable clearOrder st s -> answered_once s.
Proof.
  intros [acts Hrun].
  pose proof (answered_once_mounted st) as Hinit.
  revert Hrun Hinit. generalize (mounted clearOrder st). revert s.
  induction acts as [|a acts IH]; simpl; intros s s0 Hrun Hinv.
  - injection Hrun as <-. exact Hinv.
  - destruct (fire clearOrder a s0) as [s1|] eqn:Hfire; [|discriminate].
    apply (IH s s1 Hrun). apply (answered_once_fire a s0 s1 Hinv Hfire).
Qed.

End NeverAgain.

(** **** X12 *)

(** X12: no request is retried.  Run against any backend, each of
    [loadOrders], [loadTopTapas], [handleDeleteOrder] and
    [handleConfirmOrder] calls each backend function once at most, however
    the calls settle: a rejected call is never made again.  On the event
    loop, in every reachable state, when the request in flight of a
    handler settles, resolved or rejected, what the handler sends before it
    suspends again or ends is not a request of the kind that settled, and
    is neither a [saveOrder] nor a [deleteOrder]: these two are only ever
    sent by a click. *)
Theorem replies_never_resend :
  forall clearOrder : Store -> Store,
    (calls_each_once clearOrder loadOrders
     /\ calls_each_once clearOrder loadTopTapas
     /\ (forall orderId : string,
           calls_each_once clearOrder (handleDeleteOrder orderId))
     /\ (forall (c : option Customer) (cart : list Item),
           calls_each_once clearOrder (handleConfirmOrder c cart)))
    /\ (forall (st : Store) (s s' : System) (i : nat) (how : Settled)
               (f : InFlight),
          reachable clearOrder st s ->
          nth_error (pool s) i = Some f ->
          fire clearOrder (Settle i how) s = Some s' ->
          exists evs : list Event,
            log (world s') = log (world s) ++ evs
            /\ Forall (fun r => same_kind (request f) r = false
                                /\ is_save r = false
                                /\ is_delete r = false)
                      (requests_of evs)).
Proof.
  intro clearOrder. split.
  - split; [|split; [|split]].
    + apply calls_each_once_of, never_again_loadOrders.
    + apply calls_each_once_of, never_again_loadTopTapas.
    + intro orderId.
      apply calls_each_once_of, never_again_handleDeleteOrder.
    + intros c cart.
      apply calls_each_once_of, never_again_handleConfirmOrder.
  - intros st [w pl] s' i how f Hreach Hnth Hfire.
    pose proof (reloading_reachable clearOrder st _ Hreach) as Hreload.
    pose proof (answered_once_reachable clearOrder st _ Hreach) as Honce.
    simpl in Hfire, Hnth. rewrite Hnth in Hfire.
    destruct (settle (request f) how) as [res|]; [|discriminate].
    injection Hfire as <-.
    unfold reloading in Hreload. unfold answered_once in Honce.
    simpl in Hreload, Honce.
    rewrite Forall_forall in Hreload, Honce.
    pose proof (Hreload f (nth_error_In pl i Hnth) res) as Hf1.
    pose proof (Honce f (nth_error_In pl i Hnth) res) as Hf2.
    exists (first_events (resume f res)). split.
    + unfold spawn. simpl.
      pose proof (log_run_sync clearOrder (resume f res) w) as Hlog.
      destruct (run_sync clearOrder (resume f res) w) as [w' [r|r k]];
        exact Hlog.
    + apply reloads_only_first_events in Hf1.
      apply never_again_first_events in Hf2.
      rewrite Forall_forall in Hf1, Hf2. apply Forall_forall.
      intros r Hin. destruct (Hf1 r Hin) as [Hsave Hdelete].
      split; [apply Hf2, Hin|]. split; assumption.
Qed.

Lemma replies_never_resend_witness :
  map request (pool deleting_a) = [DeleteOrder "A"]
  /\ map request (pool deleted_reloading) = [GetAllOrders]
  /\ exists evs : list Event,
       log (world deleted_reloading) = log (world deleting_a) ++ evs
       /\ Forall (fun r => same_kind (DeleteOrder "A") r = false
                           /\ is_save r = false
                           /\ is_delete r = false)
                 (requests_of evs).
Proof.
  split; [reflexivity|]. split; [reflexivity|].
  apply (proj2 (replies_never_resend empty_cart)
               (mkStore (Some ana) [coke; tapa])
               deleting_a deleted_reloading 0%nat ResolvedVoid
               delete_in_flight).
  - exists [Settle 0 (ResolvedOrders (Some [order_a; order_b]));
            Settle 0 (ResolvedTop []);
            ClickDelete 0].
    reflexivity.
  - reflexivity.
  - reflexivity.
Defined.
